(** * Build-avoidance cache of skaffold: cache store construction and the fake daemon

    Shallow embedding of
    - [pkg/skaffold/build/cache/cache.go]: [NewCache], [resolveCacheFile],
      [retrieveArtifactCache], [saveArtifactCache];
    - the test double of the docker API client ([testutil.FakeAPIClient]).

    Go packages are Rocq modules, so that the definitions read as the calls of
    the source do ([ioutil.ReadFile], [yaml.Unmarshal], [errors.Wrap], ...).
    A Go function returning [(T, error)] returns a pair [T * option error]
    ([None] is the nil error); a Go map is an [option (gmap string V)], [None]
    being the nil map. Code that touches files runs in the state monad [os.M]
    over [os.World]. *)

From stdpp Require Import gmap strings list sorting pretty.
From Stdlib Require Import ZArith.

Set Warnings "-register-all".

(** ** Go values shared by both packages *)

Inductive Errno := ENOENT | EACCES | EISDIR | ENOSPC.

(** A Go map with string keys; [None] is the nil map. *)
Definition GoMap (V : Type) : Type := option (gmap string V).

(** An operand of a format string. *)
Inductive fmtArg :=
| ArgString (s : string)
| ArgMap (m : GoMap string).

(** The dynamic types of the [error] values the two files create or pass on.
    An error made by [fmt.Errorf] keeps its format and operands apart. *)
Inductive error :=
| fmtError (format : string) (args : list fmtArg) (* fmt.Errorf *)
| PathError (op path : string) (errno : Errno)    (* *os.PathError *)
| withMessage (cause : error) (msg : string)      (* errors.Wrap *)
| yamlError (msg : string)                        (* syntax error of yaml *)
| TypeError (mismatches : list (string * string)) (* *yaml.TypeError *)
| notFoundError (inner : option error).           (* testutil.notFoundError *)

(** Reading a map, nil or not: [v, ok := m[k]]. *)
Definition go_lookup {V} (m : GoMap V) (k : string) : option V :=
  match m with
  | None => None
  | Some t => t !! k
  end.

(** The entries of a map; the nil map has none. *)
Definition go_entries {V} (m : GoMap V) : gmap string V :=
  match m with
  | None => ∅
  | Some t => t
  end.

Module errors.
(** [errors.Wrap] returns nil when [err] is nil. *)
Definition Wrap (err : option error) (message : string) : option error :=
  match err with
  | None => None
  | Some e => Some (withMessage e message)
  end.
End errors.

(** ** The operating system: files, home directory, log *)

Module os.

(** What a path names. [accessible] is false for a file the process may
    neither read nor write: one bit stands for both permissions. A path is
    a name and nothing more: two paths are two files, links are not
    modelled. *)
Inductive Node :=
| File (accessible : bool) (data : string)
| Dir.

Inductive Event :=
| EvStat (path : string)
| EvCreate (path : string)
| EvReadFile (path : string)
| EvWriteFile (path : string)
| EvHomeDir.

(** A line of the logrus log: level, format string, and the error printed. *)
Record LogEntry := { level : string; format : string; arg : error }.

Record World := {
  nodes : gmap string Node;
  (** paths at which no new file can be created (read-only or missing parent) *)
  nocreate : gset string;
  (** paths at which writing fails once the file is open (device full,
      input/output error) *)
  failing : gset string;
  (** what [homedir.Dir] finds *)
  home : string * option error;
  log : list LogEntry;
  (** the calls made to the file system so far, oldest first *)
  trace : list Event;
}.

Definition M (A : Type) : Type := World → A * World.

Definition ret {A} (a : A) : M A := λ w, (a, w).
Definition bind {A B} (c : M A) (k : A → M B) : M B :=
  λ w, let '(a, w') := c w in k a w'.

(** The three ways the code changes the world. *)
Definition traced (e : Event) (w : World) : World :=
  {| nodes := nodes w; nocreate := nocreate w; failing := failing w;
     home := home w; log := log w; trace := trace w ++ [e] |}.

Definition stored (p : string) (n : Node) (w : World) : World :=
  {| nodes := <[p := n]> (nodes w); nocreate := nocreate w;
     failing := failing w; home := home w; log := log w; trace := trace w |}.

Definition logged (l : LogEntry) (w : World) : World :=
  {| nodes := nodes w; nocreate := nocreate w; failing := failing w;
     home := home w; log := log w ++ [l]; trace := trace w |}.

Definition emit (e : Event) : M unit := λ w, (tt, traced e w).

Definition set_node (p : string) (n : Node) : M unit :=
  λ w, (tt, stored p n w).

Definition get_node (p : string) : M (option Node) := λ w, (nodes w !! p, w).

Definition get_home : M (string * option error) := λ w, (home w, w).

Definition can_create (p : string) : M bool :=
  λ w, (bool_decide (p ∉ nocreate w), w).

Definition can_write (p : string) : M bool :=
  λ w, (bool_decide (p ∉ failing w), w).

(** [os.Stat]: nil when the path names something. *)
Definition Stat (name : string) : M (option error) :=
  bind (emit (EvStat name)) (λ _,
  bind (get_node name) (λ n,
  ret (match n with
       | Some _ => None
       | None => Some (PathError "stat" name ENOENT)
       end))).

Definition IsNotExist (err : option error) : bool :=
  match err with
  | Some (PathError _ _ ENOENT) => true
  | _ => false
  end.

End os.

#[global] Instance M_ret : MRet os.M := @os.ret.
#[global] Instance M_bind : MBind os.M := λ A B k c, os.bind c k.

Module ioutil.
Import os.

(** [ioutil.ReadFile]: the whole content of a regular, accessible file. *)
Definition ReadFile (filename : string) : M (string * option error) :=
  _ ← emit (EvReadFile filename);
  n ← get_node filename;
  ret (match n with
       | Some (File true data) => (data, None)
       | Some (File false _) => ("", Some (PathError "open" filename EACCES))
       | Some Dir => ("", Some (PathError "read" filename EISDIR))
       | None => ("", Some (PathError "open" filename ENOENT))
       end).

(** The owner may read and write a file created with mode [perm]. *)
Definition owner_rw (perm : Z) : bool := (Z.land perm 384 =? 384)%Z.

(** What [ioutil.WriteFile] does once the file is open and cut to length
    zero: it writes [data] and closes. When that fails the file stays cut;
    what was written of [data] before the failure is not kept. *)
Definition write_opened (filename : string) (accessible : bool)
    (data : string) : M (option error) :=
  _ ← set_node filename (File accessible "");
  ok ← can_write filename;
  if ok : bool then
    _ ← set_node filename (File accessible data); ret None
  else ret (Some (PathError "write" filename ENOSPC)).

(** [ioutil.WriteFile]: opens with O_WRONLY|O_CREATE|O_TRUNC, so an existing
    file is cut to length zero and a missing one is created with [perm],
    before [data] is written. *)
Definition WriteFile (filename : string) (data : string) (perm : Z)
  : M (option error) :=
  _ ← emit (EvWriteFile filename);
  n ← get_node filename;
  match n with
  | Some (File true _) => write_opened filename true data
  | Some (File false _) => ret (Some (PathError "open" filename EACCES))
  | Some Dir => ret (Some (PathError "open" filename EISDIR))
  | None =>
      ok ← can_create filename;
      if ok : bool then write_opened filename (owner_rw perm) data
      else ret (Some (PathError "open" filename ENOENT))
  end.
End ioutil.

Module homedir.
Import os.
Definition Dir : M (string * option error) :=
  _ ← emit EvHomeDir; get_home.
End homedir.

Module logrus.
Import os.
Definition Warnf (fmt : string) (e : error) : M unit :=
  λ w, (tt, logged {| level := "warning"; format := fmt; arg := e |} w).
End logrus.

Module util.
Import os.

(** Modelled from the spec: [util.VerifyOrCreateFile] is not among the
    sources. The spec has it ensure the file exists, creating it empty if
    missing, and lets the creation fail (a path that is not writable). A path
    that names something already is left as it is. *)
Definition VerifyOrCreateFile (path : string) : M (option error) :=
  err ← Stat path;
  if IsNotExist err then
    _ ← emit (EvCreate path);
    ok ← can_create path;
    if ok : bool then _ ← set_node path (File true ""); ret None
    else ret (errors.Wrap (Some (PathError "open" path EACCES)) "creating file")
  else ret err.
End util.

(** ** gopkg.in/yaml.v2, as far as the cache uses it

    The library works in two layers, and so does the model. The text layer
    (emitter and parser, between bytes and the node tree of a document) is
    an interface, [yaml.Text]: the cache code never looks inside it. The typed
    layer (what the library does by reflection between Go values and nodes:
    struct tags, [omitempty], maps as mappings) is written out per type as
    instances of [yaml.Repr]. A scalar node is its text: a key whose text
    is << is the merge key, as it is for the decoder when the key was written
    plain, which is how the emitter writes it. Anchors, aliases and explicit
    tags are outside the model. *)

Module yaml.

Inductive Node :=
| Null
| Scalar (value : string)
| Sequence (items : list Node)
| Mapping (pairs : list (Node * Node)).

Inductive Parsed :=
| SyntaxError (msg : string)
| NoDocument                   (* an empty stream: nothing to decode *)
| Document (root : Node).

Class Text := {
  emitter : Node → string;
  parser : string → Parsed;
  (** the order in which the encoder writes the keys of a Go map *)
  keyLess : string → string → bool;
}.

Definition shortTag (n : Node) : string :=
  match n with
  | Null => "!!null"
  | Scalar _ => "!!str"
  | Sequence _ => "!!seq"
  | Mapping _ => "!!map"
  end.

(** What decoding a node into a variable gives: the new value of the
    variable when the node was good for the type ([None] leaves the variable
    as it was) with the mismatches met on the way, or the failure that stops
    the whole decoding. *)
Inductive Decoded (T : Type) :=
| Done (good : option T) (mismatches : list (string * string))
| Failed (msg : string).
Arguments Done {T} good mismatches.
Arguments Failed {T} msg.

(** What reflection knows of a Go type [T]: its name, its zero value, how a
    value is encoded, and how a node is decoded into a variable of the
    type. *)
Class Repr (T : Type) := {
  typeName : string;
  zero : T;
  isZero : T → bool;
  encode : T → Node;
  decode : Node → T → Decoded T;
}.
Arguments typeName T {_}.
Arguments zero T {_}.

#[global] Instance string_repr : Repr string := {|
  typeName := "string";
  zero := "";
  isZero s := bool_decide (s = "");
  encode s := Scalar s;
  decode n out :=
    match n with
    | Null => Done (Some "") []
    | Scalar v => Done (Some v) []
    | _ => Done None [(shortTag n, "string")]
    end;
|}.

(** The decoder on its way through the pairs of a mapping: the variable and
    the mismatches so far, or the failure that stopped it. *)
Inductive Progress (A : Type) :=
| Running (acc : A) (mismatches : list (string * string))
| Aborted (msg : string).
Arguments Running {A} acc mismatches.
Arguments Aborted {A} msg.

Definition isMerge (n : Node) : bool :=
  match n with
  | Scalar value => bool_decide (value = "<<")
  | _ => false
  end.

Definition wantMap : string :=
  "map merge requires map or sequence of maps as the value".

(** The loop of the decoder over the pairs of a mapping, for a map and for a
    struct alike: [entry] is what it does with an ordinary key and value. At
    a merge key it decodes the value into the same variable instead: a
    mapping as it is, a sequence of mappings from its last item to its
    first, and it fails on anything else. *)
Fixpoint mapping {A} (entry : A → list (string * string) → Node → Node → Progress A)
    (n : Node) (acc : A) (errs : list (string * string)) : Progress A :=
  match n with
  | Mapping pairs =>
      (fix loop (ps : list (Node * Node)) (acc : A)
           (errs : list (string * string)) : Progress A :=
         match ps with
         | [] => Running acc errs
         | (k, v) :: rest =>
             let r :=
               if isMerge k then
                 match v with
                 | Mapping _ => mapping entry v acc errs
                 | Sequence items =>
                     (fix backwards (its : list Node) : Progress A :=
                        match its with
                        | [] => Running acc errs
                        | item :: later =>
                            match backwards later with
                            | Aborted msg => Aborted msg
                            | Running acc' errs' =>
                                match item with
                                | Mapping _ => mapping entry item acc' errs'
                                | _ => Aborted wantMap
                                end
                            end
                        end) items
                 | _ => Aborted wantMap
                 end
               else entry acc errs k v in
             match r with
             | Running acc' errs' => loop rest acc' errs'
             | Aborted msg => Aborted msg
             end
         end) pairs acc errs
  | _ => Running acc errs
  end.

(** The same loop over pairs none of which has the merge key. *)
Fixpoint entries {A} (entry : A → list (string * string) → Node → Node → Progress A)
    (ps : list (Node * Node)) (acc : A) (errs : list (string * string))
  : Progress A :=
  match ps with
  | [] => Running acc errs
  | (k, v) :: rest =>
      match entry acc errs k v with
      | Running acc' errs' => entries entry rest acc' errs'
      | Aborted msg => Aborted msg
      end
  end.

(** A struct field with tag [yaml:"name,omitempty"]. *)
Definition omitempty_field `{!Repr T} (name : string) (v : T)
  : list (Node * Node) :=
  if isZero v then [] else [(Scalar name, encode v)].

Section maps.
Context `{!Text} `{!Repr V}.

Definition entryLess (p q : string * V) : Prop := keyLess p.1 q.1 = true.

#[global] Instance entryLess_dec p q : Decision (entryLess p q).
Proof. unfold entryLess. apply _. Defined.

Definition encode_map (m : GoMap V) : Node :=
  Mapping ((λ p, (Scalar p.1, encode p.2))
             <$> merge_sort entryLess (map_to_list (go_entries m))).

(** One key and value of a mapping decoded into the map [acc]. *)
Definition decode_entry (acc : gmap string V) (errs : list (string * string))
    (k v : Node) : Progress (gmap string V) :=
  match decode k (zero string) with
  | Failed msg => Aborted msg
  | Done None e => Running acc (errs ++ e)
  | Done (Some key) e =>
      match decode v (zero V) with
      | Failed msg => Aborted msg
      | Done None e' => Running acc (errs ++ e ++ e')
      | Done (Some x) e' => Running (<[key := x]> acc) (errs ++ e ++ e')
      end
  end.

Definition decode_map (n : Node) (out : GoMap V) : Decoded (GoMap V) :=
  match n with
  | Null => Done (Some None) []
  | Mapping _ =>
      match mapping decode_entry n (go_entries out) [] with
      | Running acc errs => Done (Some (Some acc)) errs
      | Aborted msg => Failed msg
      end
  | _ => Done None [(shortTag n, "map[string]" +:+ typeName V)]
  end.

#[global] Instance map_repr : Repr (GoMap V) := {|
  typeName := "map[string]" +:+ typeName V;
  zero := None;
  isZero m := bool_decide (go_entries m = ∅);
  encode := encode_map;
  decode := decode_map;
|}.
End maps.

Section calls.
Context `{!Text} `{!Repr T}.

(** [yaml.Marshal(in)]: no value of the types used here makes it fail. *)
Definition Marshal (v : T) : string * option error :=
  (emitter (encode v), None).

(** [yaml.Unmarshal(in, &out)]; the new value of [out] comes with the
    error. *)
Definition Unmarshal (data : string) (out : T) : T * option error :=
  match parser data with
  | SyntaxError msg => (out, Some (yamlError msg))
  | NoDocument => (out, None)
  | Document n =>
      match decode n out with
      | Failed msg => (out, Some (yamlError msg))
      | Done r errs =>
          (default out r,
           match errs with [] => None | _ => Some (TypeError errs) end)
      end
  end.
End calls.

End yaml.

(** ** Packages the cache imports and whose code is elsewhere *)

Module filepath.
(** [filepath.Join] of the Go library. *)
Class Impl := { Join : list string → string }.
End filepath.

Module constants.
(** The two constants of [pkg/skaffold/constants] that name the default
    cache file; their values are not among the sources. *)
Class Values := { DefaultSkaffoldDir : string; DefaultCacheFile : string }.
End constants.

Module runcontext.
(** The fields of the run context that [NewCache] reads. *)
Record SkaffoldOptions := { CacheArtifacts : bool; CacheFile : string }.
Record RunContext := {
  Opts : SkaffoldOptions;
  InsecureRegistries : GoMap bool;
}.
End runcontext.

(** ** pkg/skaffold/build/cache/cache.go *)

Module cache.
Import os runcontext.

(** ImageDetails holds the Digest and ID of an image *)
Record ImageDetails := { Digest : string; ID : string }.

#[global] Instance ImageDetails_eq_dec : EqDecision ImageDetails.
Proof. solve_decision. Defined.

(** ArtifactCache is a map of [artifact dependencies hash : ImageDetails] *)
Definition ArtifactCache : Type := GoMap ImageDetails.

(** The struct tags: [yaml:"digest,omitempty"] and [yaml:"id,omitempty"].
    Decoding is the lenient one of [yaml.Unmarshal]: a key that names no
    field is skipped. This is what the decoder does with one ordinary key
    and value of a mapping decoded into the struct [acc]. *)
Definition decode_field (acc : ImageDetails) (errs : list (string * string))
    (k v : yaml.Node) : yaml.Progress ImageDetails :=
  match yaml.decode k (yaml.zero string) with
  | yaml.Failed msg => yaml.Aborted msg
  | yaml.Done None e => yaml.Running acc (errs ++ e)
  | yaml.Done (Some name) e =>
      if bool_decide (name = "digest") then
        match yaml.decode v (Digest acc) with
        | yaml.Failed msg => yaml.Aborted msg
        | yaml.Done (Some s) e' =>
            yaml.Running {| Digest := s; ID := ID acc |} (errs ++ e ++ e')
        | yaml.Done None e' => yaml.Running acc (errs ++ e ++ e')
        end
      else if bool_decide (name = "id") then
        match yaml.decode v (ID acc) with
        | yaml.Failed msg => yaml.Aborted msg
        | yaml.Done (Some s) e' =>
            yaml.Running {| Digest := Digest acc; ID := s |} (errs ++ e ++ e')
        | yaml.Done None e' => yaml.Running acc (errs ++ e ++ e')
        end
      else yaml.Running acc (errs ++ e)
  end.

#[global] Instance ImageDetails_repr : yaml.Repr ImageDetails := {|
  yaml.typeName := "cache.ImageDetails";
  yaml.zero := {| Digest := ""; ID := "" |};
  yaml.isZero d := bool_decide (d = {| Digest := ""; ID := "" |});
  yaml.encode d :=
    yaml.Mapping (yaml.omitempty_field "digest" (Digest d)
                  ++ yaml.omitempty_field "id" (ID d));
  yaml.decode n out :=
    match n with
    | yaml.Null => yaml.Done (Some {| Digest := ""; ID := "" |}) []
    | yaml.Mapping _ =>
        match yaml.mapping decode_field n out [] with
        | yaml.Running r errs => yaml.Done (Some r) errs
        | yaml.Aborted msg => yaml.Failed msg
        end
    | _ => yaml.Done None [(yaml.shortTag n, "cache.ImageDetails")]
    end;
|}.

Section with_imports.
Context `{!yaml.Text} `{!filepath.Impl} `{!constants.Values}.
Context {LocalDaemon DependencyLister Artifact BuildArtifact : Type}.

(** cache holds any data necessary for accessing the cache *)
Record cache := {
  artifactCache : ArtifactCache;
  dependencies : DependencyLister;
  client : option LocalDaemon;
  insecureRegistries : GoMap bool;
  cacheFile : string;
  imagesAreLocal : bool;
}.

(** The values of the interface [Cache] that [NewCache] returns:
    [&noCache{}] and [&cache{...}]. The nil interface is [None]. *)
Inductive Cache :=
| noCache
| ptr (c : cache).

(** Modelled from the spec: the methods of [noCache] are not among the
    sources. The spec has the no-op cache report that every artifact must
    be built, whatever was stored before, with no I/O and no state. The
    result is the artifacts to build, the artifacts reused, and the
    error. *)
Definition noCache_RetrieveCachedArtifacts (artifacts : list Artifact)
  : M (list Artifact * list BuildArtifact * option error) :=
  mret (artifacts, [], None).

(** For testing: the package variable [newDockerClient]. *)
Variable newDockerClient :
  RunContext → M (option LocalDaemon * option error).

(** resolveCacheFile makes sure that either a passed in cache file or the
    default cache file exists *)
Definition resolveCacheFile (cacheFile : string)
  : M (string * option error) :=
  if bool_decide (cacheFile ≠ "") then
    err ← util.VerifyOrCreateFile cacheFile;
    mret (cacheFile, err)
  else
    '(home, err) ← homedir.Dir;
    if bool_decide (err ≠ None) then
      mret ("", errors.Wrap err "retrieving home directory")
    else
      let defaultFile :=
        filepath.Join [home; constants.DefaultSkaffoldDir;
                       constants.DefaultCacheFile] in
      err ← util.VerifyOrCreateFile defaultFile;
      mret (defaultFile, err).

Definition retrieveArtifactCache (cacheFile : string)
  : M (ArtifactCache * option error) :=
  let cache : ArtifactCache := Some ∅ in
  '(contents, err) ← ioutil.ReadFile cacheFile;
  if bool_decide (err ≠ None) then mret (None, err)
  else
    let '(cache, err) := yaml.Unmarshal contents cache in
    if bool_decide (err ≠ None) then mret (None, err)
    else mret (cache, None).

Definition saveArtifactCache (cacheFile : string) (contents : ArtifactCache)
  : M (option error) :=
  let '(data, err) := yaml.Marshal contents in
  if bool_decide (err ≠ None) then mret err
  else ioutil.WriteFile cacheFile data 493 (* 0755 *).

(** NewCache returns the current state of the cache *)
Definition NewCache (runCtx : RunContext) (imagesAreLocal : bool)
    (dependencies : DependencyLister) : M (option Cache * option error) :=
  if negb (CacheArtifacts (Opts runCtx)) then mret (Some noCache, None)
  else
    '(cacheFile, err) ← resolveCacheFile (CacheFile (Opts runCtx));
    match err with
    | Some e =>
        _ ← logrus.Warnf
              "Error resolving cache file, not using skaffold cache: %v" e;
        mret (Some noCache, None)
    | None =>
        '(artifactCache, err) ← retrieveArtifactCache cacheFile;
        match err with
        | Some e =>
            _ ← logrus.Warnf
                  "Error retrieving artifact cache, not using skaffold cache: %v" e;
            mret (Some noCache, None)
        | None =>
            '(client, err) ← newDockerClient runCtx;
            if imagesAreLocal && bool_decide (err ≠ None) then
              mret (None, errors.Wrap err "getting local Docker client")
            else
              mret (Some (ptr {|
                      artifactCache := artifactCache;
                      dependencies := dependencies;
                      client := client;
                      insecureRegistries := InsecureRegistries runCtx;
                      cacheFile := cacheFile;
                      imagesAreLocal := imagesAreLocal;
                    |}), None)
        end
    end.
End with_imports.

End cache.

(** ** The fake docker API client of package testutil *)

Module fmt.
Definition Errorf (format : string) (args : list fmtArg) : option error :=
  Some (fmtError format args).
End fmt.

Module strings.
(** [strings.Contains(s, substr)] *)
Definition Contains (s substr : string) : bool :=
  bool_decide (is_Some (String.index 0 substr s)).
End strings.

Module sha256.
(** [fmt.Sprintf("%x", h.Sum(nil))] after [h.Write(data)]: the 64
    hexadecimal digits of the SHA-256 of [data]. *)
Class Impl := { hexdigest : string → string }.
End sha256.

Module types.
(** Of the docker API types, the fields the fake reads or writes. *)
Record ImageBuildOptions := { Tags : list string }.
Record ImageInspect := { ID : string; RepoDigests : list string }.
End types.

Module testutil.
Import types.

(** Go's [int], 64 bits wide: [n++] wraps around. *)
Definition int_incr (n : Z) : Z :=
  ((n + 1 + 2 ^ 63) `mod` 2 ^ 64 - 2 ^ 63)%Z.

(** The double quote, for the JSON texts of the fake. *)
Definition dq : string := String (Ascii.ascii_of_nat 34) EmptyString.

(** The two readers [body] returns: [errReader], whose [Read] fails, and a
    reader over a string. *)
Inductive ReadCloser :=
| errReader
| stringReader (content : string).

Record ImageBuildResponse := { Body : option ReadCloser }.

Section fake.
Context `{!sha256.Impl} {ImageSummary : Type}.

Record FakeAPIClient := {
  TagToImageID : GoMap string;
  ImageSummaries : list ImageSummary;
  RepoDigests : list string;
  ErrImageBuild : bool;
  ErrImageInspect : bool;
  ErrImageTag : bool;
  ErrImagePush : bool;
  ErrImagePull : bool;
  ErrStream : bool;

  nextImageID : Z;
  Tagged : list string;
  Pushed : list string;
  Built : list ImageBuildOptions;
  PushedImages : list string;
}.

(** The method [NotFound] of an error, when its type has one. *)
Definition NotFound (e : error) : option bool :=
  match e with
  | notFoundError _ => Some true
  | _ => None
  end.

Definition body (f : FakeAPIClient) (digest : string) : ReadCloser :=
  if ErrStream f then errReader
  else stringReader ("{" +:+ dq +:+ "aux" +:+ dq +:+ ":{" +:+ dq +:+ "digest"
                       +:+ dq +:+ ":" +:+ dq +:+ digest +:+ dq +:+ "}}").

(** The body of the loop over [options.Tags] in [ImageBuild]. *)
Definition build_tag (imageID : string) (tags : gmap string string)
    (tag : string) : gmap string string :=
  let tags := <[tag := imageID]> tags in
  if negb (strings.Contains tag ":") then <[tag +:+ ":latest" := imageID]> tags
  else tags.

Definition ImageBuild (options : ImageBuildOptions) (f : FakeAPIClient)
  : (ImageBuildResponse * option error) * FakeAPIClient :=
  if ErrImageBuild f then (({| Body := None |}, fmt.Errorf "" []), f)
  else
    let tags := match TagToImageID f with None => ∅ | Some t => t end in
    let next := int_incr (nextImageID f) in
    let imageID := "sha256:" +:+ pretty next in
    let tags := <[imageID := imageID]> tags in
    let tags := foldl (build_tag imageID) tags (Tags options) in
    let f' := {|
      TagToImageID := Some tags;
      ImageSummaries := ImageSummaries f;
      RepoDigests := RepoDigests f;
      ErrImageBuild := ErrImageBuild f;
      ErrImageInspect := ErrImageInspect f;
      ErrImageTag := ErrImageTag f;
      ErrImagePush := ErrImagePush f;
      ErrImagePull := ErrImagePull f;
      ErrStream := ErrStream f;
      nextImageID := next;
      Tagged := Tagged f;
      Pushed := Pushed f;
      Built := Built f ++ [options];
      PushedImages := PushedImages f;
    |} in
    (({| Body := Some (body f' imageID) |}, None), f').

(** Go visits the entries of a map in an order it does not promise: a
    [range] over the map may follow any list that holds each entry once. *)
Definition range_order (m : GoMap string) (order : list (string * string))
  : Prop :=
  order ≡ₚ map_to_list (go_entries m).

(** The loop of [ImageInspectWithRaw] along [order]: the first entry whose
    tag or image id is [ref]. *)
Fixpoint inspect_range (ref : string) (order : list (string * string))
  : option string :=
  match order with
  | [] => None
  | (tag, imageID) :: rest =>
      if bool_decide (tag = ref) || bool_decide (imageID = ref)
      then Some imageID
      else inspect_range ref rest
  end.

Definition ImageInspectWithRaw (order : list (string * string))
    (ref : string) (f : FakeAPIClient)
  : ImageInspect * string * option error :=
  if ErrImageInspect f then
    ({| ID := ""; types.RepoDigests := [] |}, "", fmt.Errorf "" [])
  else
    match inspect_range ref order with
    | Some imageID =>
        let rawConfig := "{" +:+ dq +:+ "Config" +:+ dq +:+ ":{" +:+ dq
                           +:+ "Image" +:+ dq +:+ ":" +:+ dq +:+ imageID
                           +:+ dq +:+ "}}" in
        ({| ID := imageID; types.RepoDigests := RepoDigests f |},
         rawConfig, None)
    | None =>
        ({| ID := ""; types.RepoDigests := [] |}, "",
         Some (notFoundError None))
    end.

Definition ImageTag (image ref : string) (f : FakeAPIClient)
  : option error * FakeAPIClient :=
  if ErrImageTag f then (fmt.Errorf "" [], f)
  else
    match go_lookup (TagToImageID f) image with
    | None =>
        (fmt.Errorf "image %s not found. fake registry contents: %s"
           [ArgString image; ArgMap (TagToImageID f)], f)
    | Some imageID =>
        let tags := match TagToImageID f with None => ∅ | Some t => t end in
        (None, {|
           TagToImageID := Some (<[ref := imageID]> tags);
           ImageSummaries := ImageSummaries f;
           RepoDigests := RepoDigests f;
           ErrImageBuild := ErrImageBuild f;
           ErrImageInspect := ErrImageInspect f;
           ErrImageTag := ErrImageTag f;
           ErrImagePush := ErrImagePush f;
           ErrImagePull := ErrImagePull f;
           ErrStream := ErrStream f;
           nextImageID := nextImageID f;
           Tagged := Tagged f ++ [ref];
           Pushed := Pushed f;
           Built := Built f;
           PushedImages := PushedImages f;
         |})
    end.

Definition ImagePush (ref : string) (f : FakeAPIClient)
  : (option ReadCloser * option error) * FakeAPIClient :=
  if ErrImagePush f then ((None, fmt.Errorf "" []), f)
  else
    let digest :=
      "sha256:" +:+ String.substring 0 64
        (sha256.hexdigest (default "" (go_lookup (TagToImageID f) ref))) in
    let f' := {|
      TagToImageID := TagToImageID f;
      ImageSummaries := ImageSummaries f;
      RepoDigests := RepoDigests f;
      ErrImageBuild := ErrImageBuild f;
      ErrImageInspect := ErrImageInspect f;
      ErrImageTag := ErrImageTag f;
      ErrImagePush := ErrImagePush f;
      ErrImagePull := ErrImagePull f;
      ErrStream := ErrStream f;
      nextImageID := nextImageID f;
      Tagged := Tagged f;
      Pushed := Pushed f ++ [digest];
      Built := Built f;
      PushedImages := PushedImages f ++ [ref];
    |} in
    ((Some (body f' digest), None), f').

Definition ImagePull (ref : string) (f : FakeAPIClient)
  : (option ReadCloser * option error) * FakeAPIClient :=
  if ErrImagePull f then ((None, fmt.Errorf "" []), f)
  else ((Some (body f ""), None), f).

Definition ImageList (f : FakeAPIClient)
  : list ImageSummary * option error :=
  (ImageSummaries f, None).

Definition Close (f : FakeAPIClient) : option error := None.
End fake.

End testutil.

(** ** Concrete imports, to run the definitions on examples

    [plain] is a text layer for block mappings whose keys and values are plain
    scalars, two levels deep: the files the cache writes for keys, digests and
    ids that need no quoting. It reads nothing else: any other text is a
    syntax error to it. *)

Module plain.
Import yaml.

Definition nl : string := String (Ascii.ascii_of_nat 10) EmptyString.

Definition emit_field (kv : Node * Node) : string :=
  match kv with
  | (Scalar k, Scalar v) => "  " +:+ k +:+ ": " +:+ v +:+ nl
  | _ => "  ?" +:+ nl
  end.

Definition emit_entry (kv : Node * Node) : string :=
  match kv with
  | (Scalar k, Mapping []) => k +:+ ": {}" +:+ nl
  | (Scalar k, Mapping fields) =>
      k +:+ ":" +:+ nl +:+ String.concat "" (emit_field <$> fields)
  | _ => "?" +:+ nl
  end.

Definition emit_document (n : Node) : string :=
  match n with
  | Mapping [] => "{}" +:+ nl
  | Mapping entries => String.concat "" (emit_entry <$> entries)
  | _ => "?" +:+ nl
  end.

Fixpoint lines (s : string) : list string :=
  match s with
  | EmptyString => [EmptyString]
  | String c rest =>
      if bool_decide (c = Ascii.ascii_of_nat 10) then EmptyString :: lines rest
      else match lines rest with
           | l :: ls => String c l :: ls
           | [] => [String c EmptyString]
           end
  end.

(** [s] without its suffix [suf], when it ends with it. *)
Definition strip_suffix (suf s : string) : option string :=
  let n := String.length s - String.length suf in
  if bool_decide (String.length suf ≤ String.length s)
     && bool_decide (String.substring n (String.length suf) s = suf)
  then Some (String.substring 0 n s) else None.

(** [key: value] split at the first colon followed by a space. *)
Definition split_field (s : string) : option (string * string) :=
  match String.index 0 ": " s with
  | Some i =>
      Some (String.substring 0 i s,
            String.substring (i + 2) (String.length s - (i + 2)) s)
  | None => None
  end.

(** The entries read so far, and the entry whose fields are being read. *)
Record state := {
  done : list (Node * Node);
  current : option (string * list (Node * Node));
}.

Definition flush (st : state) : list (Node * Node) :=
  match current st with
  | None => done st
  | Some (k, []) => done st ++ [(Scalar k, Null)]
  | Some (k, fields) => done st ++ [(Scalar k, Mapping fields)]
  end.

Definition parse_line (st : option state) (line : string) : option state :=
  st ← st;
  if bool_decide (line = "") then Some st
  else if String.prefix "  " line then
    '(k, v) ← split_field (String.substring 2 (String.length line - 2) line);
    '(key, fields) ← current st;
    if bool_decide (is_Some (split_field v)) then None else
    Some {| done := done st;
            current := Some (key, fields ++ [(Scalar k, Scalar v)]) |}
  else
    match strip_suffix ": {}" line with
    | Some k => Some {| done := flush st ++ [(Scalar k, Mapping [])];
                        current := None |}
    | None =>
        match strip_suffix ":" line with
        | Some k => Some {| done := flush st; current := Some (k, []) |}
        | None =>
            '(k, v) ← split_field line;
            if bool_decide (is_Some (split_field v)) then None
            else Some {| done := flush st ++ [(Scalar k, Scalar v)];
                         current := None |}
        end
    end.

Definition parse_document (data : string) : Parsed :=
  if bool_decide (data = "{}" +:+ nl) then Document (Mapping [])
  else
    match foldl parse_line (Some {| done := []; current := None |})
                (lines data) with
    | None => SyntaxError "did not find expected key"
    | Some st =>
        match flush st with
        | [] => NoDocument
        | entries => Document (Mapping entries)
        end
    end.

Definition text : Text := {|
  emitter := emit_document;
  parser := parse_document;
  keyLess := String.leb;
|}.

(** Joins the non-empty elements with a slash. *)
Definition join : filepath.Impl := {|
  filepath.Join elem :=
    String.concat "/" (filter (λ s, s ≠ "") elem);
|}.

(** A stand-in for SHA-256, 64 digits long as the real one. *)
Definition zeros : sha256.Impl := {|
  sha256.hexdigest _ :=
    "0000000000000000000000000000000000000000000000000000000000000000";
|}.

Definition dirs : constants.Values := {|
  constants.DefaultSkaffoldDir := ".skaffold";
  constants.DefaultCacheFile := "cache";
|}.
End plain.

(** ** Vocabulary of the statements about the cache file *)

Module cachefile.
Import os cache.

Section states.
Context `{!yaml.Text}.

(** Nothing is at the path. *)
Definition missing (p : string) (w : World) : Prop :=
  nodes w !! p = None.

(** The path names a file the process may not open, or a directory. *)
Definition unreadable (p : string) (w : World) : Prop :=
  (∃ d, nodes w !! p = Some (File false d)) ∨ nodes w !! p = Some Dir.

(** The content is no YAML, or is YAML of another shape than a map of
    image details. *)
Definition malformed_content (data : string) : Prop :=
  match yaml.parser data with
  | yaml.SyntaxError _ => True
  | yaml.NoDocument => False
  | yaml.Document n =>
      match yaml.decode n (Some ∅ : ArtifactCache) with
      | yaml.Failed _ => True
      | yaml.Done _ errs => errs ≠ []
      end
  end.

Definition malformed (p : string) (w : World) : Prop :=
  ∃ d, nodes w !! p = Some (File true d) ∧ malformed_content d.

(** The path names a readable file without content. *)
Definition empty_file (p : string) (w : World) : Prop :=
  nodes w !! p = Some (File true "").
End states.
End cachefile.

(** ** Vocabulary of the statements about the fake daemon *)

Module daemon.
Import testutil.

Inductive Operation := Build | Inspect | Tag | Push | Pull.

#[global] Instance Operation_eq_dec : EqDecision Operation.
Proof. solve_decision. Defined.

(** A call of one of the five operations, with its arguments. A call of
    inspect comes with the order in which the range visits the map. *)
Inductive Call :=
| CallBuild (options : types.ImageBuildOptions)
| CallInspect (order : list (string * string)) (ref : string)
| CallTag (image ref : string)
| CallPush (ref : string)
| CallPull (ref : string).

Definition operation (c : Call) : Operation :=
  match c with
  | CallBuild _ => Build
  | CallInspect _ _ => Inspect
  | CallTag _ _ => Tag
  | CallPush _ => Push
  | CallPull _ => Pull
  end.

Section calls.
Context `{!sha256.Impl} {ImageSummary : Type}.

Abbreviation Fake := (@FakeAPIClient ImageSummary).

(** The error a call returns. *)
Definition failure (c : Call) (f : Fake) : option error :=
  match c with
  | CallBuild options => (ImageBuild options f).1.2
  | CallInspect order ref => (ImageInspectWithRaw order ref f).2
  | CallTag image ref => (ImageTag image ref f).1
  | CallPush ref => (ImagePush ref f).1.2
  | CallPull ref => (ImagePull ref f).1.2
  end.

(** The fake with the failure flag of [op] set and the flags of the four
    other operations unset; the rest of the state is that of [f]. *)
Definition force (op : Operation) (f : Fake) : Fake := {|
  TagToImageID := TagToImageID f;
  ImageSummaries := ImageSummaries f;
  RepoDigests := RepoDigests f;
  ErrImageBuild := bool_decide (op = Build);
  ErrImageInspect := bool_decide (op = Inspect);
  ErrImageTag := bool_decide (op = Tag);
  ErrImagePush := bool_decide (op = Push);
  ErrImagePull := bool_decide (op = Pull);
  ErrStream := ErrStream f;
  nextImageID := nextImageID f;
  Tagged := Tagged f;
  Pushed := Pushed f;
  Built := Built f;
  PushedImages := PushedImages f;
|}.

(** [ref] is a tag of the table: what [ImageTag] looks up. *)
Definition tagged (f : Fake) (ref : string) : Prop :=
  is_Some (go_lookup (TagToImageID f) ref).

(** [ref] is a tag or an image id of the table: what [ImageInspectWithRaw]
    looks for. *)
Definition known (f : Fake) (ref : string) : Prop :=
  ∃ tag imageID,
    go_lookup (TagToImageID f) tag = Some imageID ∧ (tag = ref ∨ imageID = ref).

(** Every image id of the table is a tag of it too, as [ImageBuild] enters
    it. *)
Definition ids_are_tags (f : Fake) : Prop :=
  ∀ tag imageID,
    go_lookup (TagToImageID f) tag = Some imageID → tagged f imageID.

(** What a call needs in order to succeed when no failure is forced. *)
Definition feasible (c : Call) (f : Fake) : Prop :=
  match c with
  | CallInspect _ ref => known f ref
  | CallTag image _ => tagged f image
  | _ => True
  end.

(** The order that comes with a call of inspect is one of the map. *)
Definition well_ordered (c : Call) (f : Fake) : Prop :=
  match c with
  | CallInspect order _ => range_order (TagToImageID f) order
  | _ => True
  end.
End calls.
End daemon.

(** ** Example data *)

Module example.
Import os runcontext cache testutil.

Definition path : string := "/tmp/skaffold-cache".

Definition world (files : gmap string Node) : World := {|
  nodes := files;
  nocreate := ∅;
  failing := ∅;
  home := ("/home/dev", None);
  log := [];
  trace := [];
|}.

(** No file yet; an empty cache file; a directory in its place; a file that
    is no YAML. *)
Definition fresh : World := world ∅.
Definition started : World := world {[path := File true ""]}.
Definition blocked : World := world {[path := Dir]}.
Definition garbled : World :=
  world {[path := File true "3f2a: digest: sha256:abc"]}.

Definition enabled : RunContext :=
  {| Opts := {| CacheArtifacts := true; CacheFile := path |};
     InsecureRegistries := None |}.

Definition disabled : RunContext :=
  {| Opts := {| CacheArtifacts := false; CacheFile := path |};
     InsecureRegistries := None |}.

Definition refused : error :=
  fmtError "Cannot connect to the Docker daemon" [].

(** Two values for the package variable [newDockerClient]. *)
Definition no_daemon (_ : RunContext) : M (option unit * option error) :=
  mret (None, Some refused).

Definition local_daemon (_ : RunContext) : M (option unit * option error) :=
  mret (Some tt, None).

Definition artifacts : ArtifactCache :=
  Some (<["3f2a" := {| Digest := "sha256:abc"; ID := "sha256:1" |}]>
        (<["77b0" := {| Digest := ""; ID := "sha256:2" |}]>
        (<["c9d1" := {| Digest := ""; ID := "" |}]> ∅))).

(** A fake that has built one image with the tag [app]. *)
Definition fake : @FakeAPIClient unit := {|
  TagToImageID :=
    Some (<["sha256:1" := "sha256:1"]>
          (<["app" := "sha256:1"]>
          (<["app:latest" := "sha256:1"]> ∅)));
  ImageSummaries := [];
  RepoDigests := [];
  ErrImageBuild := false;
  ErrImageInspect := false;
  ErrImageTag := false;
  ErrImagePush := false;
  ErrImagePull := false;
  ErrStream := false;
  nextImageID := 1;
  Tagged := [];
  Pushed := [];
  Built := [{| types.Tags := ["app"] |}];
  PushedImages := [];
|}.

(** The same fake with the inspect failure forced. *)
Definition fake_inspect_fails : @FakeAPIClient unit :=
  daemon.force daemon.Inspect fake.

(** One order in which a range may visit the table of [fake]. *)
Definition visit : list (string * string) :=
  map_to_list (go_entries (TagToImageID fake)).
End example.

(** ** Calls of the fake as steps, and reading what a call returns *)

Module calls.
Import testutil daemon.

(** [ioutil.ReadAll] over the two readers of the fake: [errReader.Read]
    returns [0] and an error at once; a string reader gives its content. *)
Definition ReadAll (r : ReadCloser) : string * option error :=
  match r with
  | errReader => ("", fmt.Errorf "" [])
  | stringReader content => (content, None)
  end.

(** The JSON text [body] writes around a digest. *)
Definition aux_digest (digest : string) : string :=
  "{" +:+ dq +:+ "aux" +:+ dq +:+ ":{" +:+ dq +:+ "digest"
    +:+ dq +:+ ":" +:+ dq +:+ digest +:+ dq +:+ "}}".

Section steps.
Context `{!sha256.Impl} {ImageSummary : Type}.

(** The fake as a call leaves it. Inspect only reads. *)
Definition after (c : Call) (f : @FakeAPIClient ImageSummary)
  : @FakeAPIClient ImageSummary :=
  match c with
  | CallBuild options => (ImageBuild options f).2
  | CallInspect _ _ => f
  | CallTag image ref => (ImageTag image ref f).2
  | CallPush ref => (ImagePush ref f).2
  | CallPull ref => (ImagePull ref f).2
  end.

(** The stream a call returns, for the three calls that return one. *)
Definition stream (c : Call) (f : @FakeAPIClient ImageSummary)
  : option ReadCloser :=
  match c with
  | CallBuild options => Body (ImageBuild options f).1.1
  | CallPush ref => (ImagePush ref f).1.1
  | CallPull ref => (ImagePull ref f).1.1
  | _ => None
  end.

(** The image id the next successful build gives. *)
Definition next_id (f : @FakeAPIClient ImageSummary) : string :=
  "sha256:" +:+ pretty (int_incr (nextImageID f)).

(** The digest a push of [ref] reports. *)
Definition push_digest (f : @FakeAPIClient ImageSummary) (ref : string)
  : string :=
  "sha256:" +:+ String.substring 0 64
    (sha256.hexdigest (default "" (go_lookup (TagToImageID f) ref))).

(** The digest in the stream of a call that returns one. *)
Definition reported (c : Call) (f : @FakeAPIClient ImageSummary) : string :=
  match c with
  | CallBuild _ => next_id f
  | CallPush ref => push_digest f ref
  | _ => ""
  end.

(** What a call appends to the four lists the fake records in, when it
    returns no error. *)
Definition recorded_tag (c : Call) : list string :=
  match c with CallTag _ ref => [ref] | _ => [] end.

Definition recorded_build (c : Call) : list types.ImageBuildOptions :=
  match c with CallBuild options => [options] | _ => [] end.

Definition recorded_push (c : Call) : list string :=
  match c with CallPush ref => [ref] | _ => [] end.

Definition recorded_digest (c : Call) (f : @FakeAPIClient ImageSummary)
  : list string :=
  match c with CallPush ref => [push_digest f ref] | _ => [] end.
End steps.
End calls.

(** ** More example data *)

Module scenario.
Import os runcontext cache testutil.

(** A run context with no explicit cache file, and a world in which the home
    directory cannot be found. *)
Definition by_default : RunContext :=
  {| Opts := {| CacheArtifacts := true; CacheFile := "" |};
     InsecureRegistries := None |}.

Definition homeless : World := {|
  nodes := ∅;
  nocreate := ∅;
  failing := ∅;
  home := ("", Some (fmtError "$HOME is not defined" []));
  log := [];
  trace := [];
|}.

(** A world in which no file can be created at the path of the examples. *)
Definition sealed : World := {|
  nodes := ∅;
  nocreate := {[example.path]};
  failing := ∅;
  home := ("/home/dev", None);
  log := [];
  trace := [];
|}.



(** A fake whose table was written by hand: its image id is no tag. *)
Definition handmade : @FakeAPIClient unit := {|
  TagToImageID := Some {["app" := "sha256:7"]};
  ImageSummaries := [];
  RepoDigests := [];
  ErrImageBuild := false;
  ErrImageInspect := false;
  ErrImageTag := false;
  ErrImagePush := false;
  ErrImagePull := false;
  ErrStream := false;
  nextImageID := 7;
  Tagged := [];
  Pushed := [];
  Built := [];
  PushedImages := [];
|}.

Definition handmade_visit : list (string * string) :=
  map_to_list (go_entries (TagToImageID handmade)).

(** A fake with the stream failure set. *)
Definition fake_stream_fails : @FakeAPIClient unit := {|
  TagToImageID := TagToImageID example.fake;
  ImageSummaries := [];
  RepoDigests := [];
  ErrImageBuild := false;
  ErrImageInspect := false;
  ErrImageTag := false;
  ErrImagePush := false;
  ErrImagePull := false;
  ErrStream := true;
  nextImageID := 1;
  Tagged := [];
  Pushed := [];
  Built := [];
  PushedImages := [];
|}.

Definition build_two : types.ImageBuildOptions :=
  {| types.Tags := ["web"; "localhost:5000/web"] |}.

(** The fake of the examples after that build, and one order in which a
    range may visit its table. *)
Definition rebuilt : @FakeAPIClient unit := (ImageBuild build_two example.fake).2.

Definition revisit : list (string * string) :=
  map_to_list (go_entries (TagToImageID rebuilt)).
End scenario.

(** * Properties of the cache store *)

Ltac run_io :=
  unfold mbind, mret, M_bind, M_ret, os.bind, os.ret, os.emit, os.set_node,
    os.get_node, os.get_home, os.can_create, os.can_write in *.

Lemma go_lookup_entries {V} (m : GoMap V) k : go_lookup m k = go_entries m !! k.
Proof. by destruct m. Qed.

Section files.
Import os.


Lemma ReadFile_run filename w :
  ioutil.ReadFile filename w =
    (match nodes w !! filename with
     | Some (File true data) => (data, None)
     | Some (File false _) => ("", Some (PathError "open" filename EACCES))
     | Some Dir => ("", Some (PathError "read" filename EISDIR))
     | None => ("", Some (PathError "open" filename ENOENT))
     end, traced (EvReadFile filename) w).
Proof. reflexivity. Qed.

(** A write that succeeds leaves exactly [data] at the path. *)
Lemma WriteFile_ok filename data w w' :
  ioutil.WriteFile filename data 493 w = (None, w') →
  w' = stored filename (File true data) (traced (EvWriteFile filename) w).
Proof.
  unfold ioutil.WriteFile, ioutil.write_opened. run_io. simpl.
  change (ioutil.owner_rw 493) with true.
  assert (Htwice : stored filename (File true data)
                     (stored filename (File true "")
                        (traced (EvWriteFile filename) w))
                   = stored filename (File true data)
                       (traced (EvWriteFile filename) w)).
  { unfold stored. cbn. by rewrite insert_insert_eq. }
  destruct (nodes w !! filename) as [[[] ?|]|] eqn:E; simpl; try congruence.
  - case_bool_decide; simpl; [|congruence]. intros [= <-]. exact Htwice.
  - case_bool_decide; simpl; [|congruence].
    case_bool_decide; simpl; [|congruence]. intros [= <-]. exact Htwice.
Qed.


End files.

(** ** The typed layer of yaml reads back what it writes *)

Section typed_layer.
Import yaml cache.
Context `{!Text}.

Lemma string_decode_encode (s out : string) :
  decode (encode s) out = Done (Some s) [].
Proof. reflexivity. Qed.

Lemma mapping_without_merge {A}
    (entry : A → list (string * string) → Node → Node → Progress A) pairs acc errs :
  Forall (λ kv, isMerge kv.1 = false) pairs →
  mapping entry (Mapping pairs) acc errs = entries entry pairs acc errs.
Proof.
  cbn [mapping]. intros Hplain. revert acc errs.
  induction Hplain as [|[k v] rest Hk _ IH]; intros acc errs; [done|].
  cbn [entries fst] in *. rewrite Hk.
  destruct (entry acc errs k v) as [acc' errs'|msg]; [apply IH|done].
Qed.

Lemma ImageDetails_decode_encode (d : ImageDetails) :
  decode (encode d) (zero ImageDetails) = Done (Some d) [].
Proof.
  destruct d as [dg i]. cbn [encode decode ImageDetails_repr zero].
  unfold omitempty_field. cbn [isZero string_repr Digest ID].
  repeat case_bool_decide; subst; reflexivity.
Qed.

Section any_element.
Context `{!Repr V}.
Hypothesis element_reads_back :
  ∀ v : V, decode (encode v) (zero V) = Done (Some v) [].

Lemma entries_encoded (l : list (string * V)) acc errs :
  entries decode_entry ((λ p, (Scalar p.1, encode p.2)) <$> l) acc errs
  = Running (foldl (λ a p, <[p.1 := p.2]> a) acc l) errs.
Proof.
  revert acc errs. induction l as [|[k v] l IH]; intros acc errs; [done|].
  cbn [fmap list_fmap foldl entries]. unfold decode_entry at 1.
  cbn [fst snd]. rewrite string_decode_encode, element_reads_back.
  rewrite !app_nil_r. apply IH.
Qed.

Lemma foldl_insert_list_to_map (l : list (string * V)) :
  NoDup (l.*1) →
  foldl (λ a p, <[p.1 := p.2]> a) (∅ : gmap string V) l = list_to_map l.
Proof.
  induction l as [|[k v] l IH] using rev_ind; intros Hnd; [done|].
  rewrite fmap_app in Hnd. apply NoDup_app in Hnd as (Hl & Hk & _).
  rewrite foldl_app. cbn [foldl fst snd]. rewrite IH by done.
  rewrite list_to_map_snoc; [done|].
  intros Hin. apply (Hk k Hin). cbn. left.
Qed.

(** A map with no entry under the merge key reads back as it was written. *)
Lemma map_decode_encode (m out : GoMap V) :
  go_entries out = ∅ →
  go_lookup m "<<" = None →
  decode (encode m) out = Done (Some (Some (go_entries m))) [].
Proof.
  intros Hout Hplain. cbn [encode decode map_repr].
  unfold encode_map, decode_map.
  assert (Hperm : merge_sort entryLess (map_to_list (go_entries m))
                  ≡ₚ map_to_list (go_entries m))
    by apply merge_sort_Permutation.
  rewrite mapping_without_merge.
  2:{ apply Forall_forall. intros kv [[k v] [-> Hin]]%list_elem_of_fmap.
      cbn. apply bool_decide_eq_false. intros ->.
      rewrite Hperm in Hin. apply elem_of_map_to_list in Hin.
      rewrite go_lookup_entries in Hplain. congruence. }
  rewrite Hout, entries_encoded.
  rewrite foldl_insert_list_to_map.
  - rewrite (list_to_map_proper _ (map_to_list (go_entries m))).
    + by rewrite list_to_map_to_list.
    + rewrite Hperm. apply NoDup_fst_map_to_list.
    + done.
  - rewrite Hperm. apply NoDup_fst_map_to_list.
Qed.
End any_element.

Lemma ArtifactCache_decode_encode (m : ArtifactCache) :
  go_lookup m "<<" = None →
  decode (encode m) (Some ∅ : ArtifactCache)
  = Done (Some (Some (go_entries m))) [].
Proof.
  intros Hplain.
  by apply map_decode_encode; [apply ImageDetails_decode_encode| |].
Qed.
End typed_layer.

Section cache_store.
Import os runcontext cache cachefile.
Context `{!yaml.Text} `{!filepath.Impl} `{!constants.Values}.
Context {LocalDaemon DependencyLister Artifact BuildArtifact : Type}.

Abbreviation Cache := (@Cache LocalDaemon DependencyLister).
Abbreviation newClient := (RunContext → M (option LocalDaemon * option error)).


Lemma resolveCacheFile_default w :
  resolveCacheFile "" w =
    match home w with
    | (_, Some e) =>
        (("", Some (withMessage e "retrieving home directory")),
         traced EvHomeDir w)
    | (dir, None) =>
        let defaultFile :=
          filepath.Join [dir; constants.DefaultSkaffoldDir;
                         constants.DefaultCacheFile] in
        let r := util.VerifyOrCreateFile defaultFile (traced EvHomeDir w) in
        ((defaultFile, r.1), r.2)
    end.
Proof.
  unfold resolveCacheFile. rewrite bool_decide_false by (intros Hne; by apply Hne).
  unfold homedir.Dir. run_io. cbn [traced home].
  destruct (home w) as [dir [e|]]; cbn.
  - done.
  - by destruct (util.VerifyOrCreateFile _ _).
Qed.

Lemma retrieveArtifactCache_run cacheFile w :
  retrieveArtifactCache cacheFile w =
    (match nodes w !! cacheFile with
     | Some (File true data) =>
         match yaml.Unmarshal data (Some ∅ : ArtifactCache) with
         | (_, Some e) => (None, Some e)
         | (c, None) => (c, None)
         end
     | Some (File false _) => (None, Some (PathError "open" cacheFile EACCES))
     | Some Dir => (None, Some (PathError "read" cacheFile EISDIR))
     | None => (None, Some (PathError "open" cacheFile ENOENT))
     end, traced (EvReadFile cacheFile) w).
Proof.
  unfold retrieveArtifactCache. run_io. rewrite ReadFile_run.
  destruct (nodes w !! cacheFile) as [[[] data|]|]; cbn; try done.
  by destruct (yaml.Unmarshal data _) as [c [e|]].
Qed.

Lemma saveArtifactCache_ok cacheFile (contents : ArtifactCache) w w' :
  saveArtifactCache cacheFile contents w = (None, w') →
  w' = stored cacheFile (File true (yaml.emitter (yaml.encode contents)))
         (traced (EvWriteFile cacheFile) w).
Proof.
  unfold saveArtifactCache, yaml.Marshal.
  rewrite bool_decide_false by (intros Hne; by apply Hne).
  apply WriteFile_ok.
Qed.

(** A file whose state is one of the three bad ones does not load. *)
Lemma retrieveArtifactCache_fails p w :
  missing p w ∨ unreadable p w ∨ malformed p w →
  ∃ e, retrieveArtifactCache p w = ((None, Some e), traced (EvReadFile p) w).
Proof.
  rewrite retrieveArtifactCache_run.
  intros [Hm|[[[d Hu]|Hu]|(d & Hd & Hbad)]].
  - rewrite Hm. eauto.
  - rewrite Hu. eauto.
  - rewrite Hu. eauto.
  - rewrite Hd. unfold malformed_content in Hbad. unfold yaml.Unmarshal.
    destruct (yaml.parser d) as [msg| |n]; [eauto|done|].
    destruct (yaml.decode n _) as [r errs|msg]; [|eauto].
    destruct errs; [done|eauto].
Qed.

(** The three ways out of [NewCache] once caching is enabled. *)
Lemma NewCache_resolve_failed (newDockerClient : newClient) runCtx local
    (deps : DependencyLister)
    w p e w1 :
  CacheArtifacts (Opts runCtx) = true →
  resolveCacheFile (CacheFile (Opts runCtx)) w = ((p, Some e), w1) →
  NewCache newDockerClient runCtx local deps w =
    ((Some noCache, None),
     logged {| level := "warning";
               format := "Error resolving cache file, not using skaffold cache: %v";
               arg := e |} w1).
Proof.
  intros Hon Hres. unfold NewCache. rewrite Hon. cbn [negb]. run_io.
  by rewrite Hres.
Qed.

Lemma NewCache_retrieve_failed (newDockerClient : newClient) runCtx local
    (deps : DependencyLister)
    w p w1 c e w2 :
  CacheArtifacts (Opts runCtx) = true →
  resolveCacheFile (CacheFile (Opts runCtx)) w = ((p, None), w1) →
  retrieveArtifactCache p w1 = ((c, Some e), w2) →
  NewCache newDockerClient runCtx local deps w =
    ((Some noCache, None),
     logged {| level := "warning";
               format := "Error retrieving artifact cache, not using skaffold cache: %v";
               arg := e |} w2).
Proof.
  intros Hon Hres Hret. unfold NewCache. rewrite Hon. cbn [negb]. run_io.
  by rewrite Hres, Hret.
Qed.

Lemma NewCache_loaded (newDockerClient : newClient) runCtx local
    (deps : DependencyLister)
    w p w1 c w2 cl err w3 :
  CacheArtifacts (Opts runCtx) = true →
  resolveCacheFile (CacheFile (Opts runCtx)) w = ((p, None), w1) →
  retrieveArtifactCache p w1 = ((c, None), w2) →
  newDockerClient runCtx w2 = ((cl, err), w3) →
  NewCache newDockerClient runCtx local deps w =
    (if local && bool_decide (err ≠ None)
     then (None, errors.Wrap err "getting local Docker client")
     else (Some (ptr {|
             artifactCache := c;
             dependencies := deps;
             client := cl;
             insecureRegistries := InsecureRegistries runCtx;
             cacheFile := p;
             imagesAreLocal := local |}), None), w3).
Proof.
  intros Hon Hres Hret Hcl. unfold NewCache. rewrite Hon. cbn [negb]. run_io.
  rewrite Hres, Hret, Hcl. by destruct (local && bool_decide (err ≠ None)).
Qed.
End cache_store.

Section cache_claims.
Import os runcontext cache cachefile.
Context `{!yaml.Text} `{!filepath.Impl} `{!constants.Values}.
Context {LocalDaemon DependencyLister Artifact BuildArtifact : Type}.

Abbreviation newClient' := (RunContext → M (option LocalDaemon * option error)).

(** C1, as amended. With caching enabled and the cache file resolved and
    loaded, a daemon client that cannot be created while [imagesAreLocal] is
    true makes [NewCache] return no cache and the client's error wrapped as
    "getting local Docker client": the construction fails. With
    [imagesAreLocal] false the same error is ignored and the real cache is
    returned. *)
Theorem NewCache_client_failure (newDockerClient : newClient') runCtx
    (deps : DependencyLister) w p w1 c w2 cl e w3 :
  CacheArtifacts (Opts runCtx) = true →
  resolveCacheFile (CacheFile (Opts runCtx)) w = ((p, None), w1) →
  retrieveArtifactCache p w1 = ((c, None), w2) →
  newDockerClient runCtx w2 = ((cl, Some e), w3) →
  NewCache newDockerClient runCtx true deps w
    = ((None, Some (withMessage e "getting local Docker client")), w3)
  ∧ NewCache newDockerClient runCtx false deps w
    = ((Some (ptr {| artifactCache := c; dependencies := deps; client := cl;
                     insecureRegistries := InsecureRegistries runCtx;
                     cacheFile := p; imagesAreLocal := false |}), None), w3).
Proof.
  intros Hon Hres Hret Hcl.
  split; by rewrite (NewCache_loaded _ _ _ _ _ _ _ _ _ _ _ _ Hon Hres Hret Hcl).
Qed.

(** C2, as amended. With caching enabled, when [resolveCacheFile] fails
    (as it does for a missing file that cannot be created), or the file it
    settles on is unreadable or malformed, [NewCache] returns the no-op cache
    and no error: it logs one warning and leaves the files as the resolution
    left them. A cache file that is merely missing is no such case: the
    resolution creates it. *)
Theorem NewCache_bad_file_disables (newDockerClient : newClient') runCtx local
    (deps : DependencyLister) w p err w1 :
  CacheArtifacts (Opts runCtx) = true →
  resolveCacheFile (CacheFile (Opts runCtx)) w = ((p, err), w1) →
  err ≠ None ∨ unreadable p w1 ∨ malformed p w1 →
  ∃ w' l,
    NewCache newDockerClient runCtx local deps w = ((Some noCache, None), w')
    ∧ log w' = log w1 ++ [l] ∧ level l = "warning"
    ∧ nodes w' = nodes w1.
Proof.
  intros Hon Hres Hbad. destruct err as [e|].
  - eexists _, _. split; [by eapply NewCache_resolve_failed|done].
  - destruct Hbad as [?|Hbad]; [done|].
    destruct (retrieveArtifactCache_fails p w1) as [e Hret]; [by right|].
    eexists _, _. split; [by eapply NewCache_retrieve_failed|done].
Qed.



(** C5. With [CacheArtifacts] false, [NewCache] returns the no-op cache and
    no error and leaves the world as it found it: no file is resolved, read
    or written, nothing is logged. The no-op cache answers that every
    artifact given to it must be built, in whatever world it is asked, and
    leaves that world as it is. *)
Theorem NewCache_disabled (newDockerClient : newClient') runCtx local
    (deps : DependencyLister) w :
  CacheArtifacts (Opts runCtx) = false →
  NewCache newDockerClient runCtx local deps w = ((Some noCache, None), w)
  ∧ ∀ (artifacts : list Artifact) w0,
      noCache_RetrieveCachedArtifacts (BuildArtifact := BuildArtifact)
        artifacts w0 = ((artifacts, [], None), w0).
Proof.
  intros Hoff. split; [|done]. unfold NewCache. by rewrite Hoff.
Qed.

(** C9. What [saveArtifactCache] leaves in the file is the text of one
    document and nothing else, whatever the file held before: a mapping
    with one pair per key of the map, whose value is a mapping that has a
    [digest] pair exactly when the digest is not empty and an [id] pair
    exactly when the id is not empty, and no other pair. *)
Theorem saved_file_content (m : ArtifactCache) p w w' :
  saveArtifactCache p m w = (None, w') →
  ∃ pairs,
    nodes w' !! p = Some (File true (yaml.emitter (yaml.Mapping pairs)))
    ∧ NoDup (pairs.*1)
    ∧ (∀ kn vn, (kn, vn) ∈ pairs ↔
         ∃ k d, go_lookup m k = Some d ∧ kn = yaml.Scalar k
                ∧ vn = yaml.encode d)
    ∧ ∀ d : ImageDetails, ∃ fields,
        yaml.encode d = yaml.Mapping fields
        ∧ (∀ v, (yaml.Scalar "digest", v) ∈ fields ↔
             Digest d ≠ "" ∧ v = yaml.Scalar (Digest d))
        ∧ (∀ v, (yaml.Scalar "id", v) ∈ fields ↔
             ID d ≠ "" ∧ v = yaml.Scalar (ID d))
        ∧ (∀ kn v, (kn, v) ∈ fields →
             kn = yaml.Scalar "digest" ∨ kn = yaml.Scalar "id").
Proof.
  intros Hsave. apply saveArtifactCache_ok in Hsave as ->.
  cbn [nodes stored traced]. rewrite lookup_insert_eq.
  cbn [yaml.encode yaml.map_repr]. unfold yaml.encode_map.
  set (sorted := merge_sort yaml.entryLess (map_to_list (go_entries m))).
  assert (Hperm : sorted ≡ₚ map_to_list (go_entries m))
    by apply merge_sort_Permutation.
  eexists. split; [done|]. split; [|split].
  - rewrite <- list_fmap_compose.
    change (NoDup ((yaml.Scalar ∘ fst) <$> sorted)).
    rewrite list_fmap_compose.
    assert (Inj (=) (=) yaml.Scalar) by (intros x y [=]; done).
    apply NoDup_fmap_2; [done|]. rewrite Hperm. apply NoDup_fst_map_to_list.
  - intros kn vn. rewrite list_elem_of_fmap. split.
    + intros ([k d] & [= -> ->] & Hin). rewrite Hperm in Hin.
      apply elem_of_map_to_list in Hin. exists k, d.
      by rewrite go_lookup_entries.
    + intros (k & d & Hkd & -> & ->). exists (k, d). split; [done|].
      rewrite Hperm. apply elem_of_map_to_list.
      by rewrite <- go_lookup_entries.
  - intros [dg i]. cbn [yaml.encode ImageDetails_repr Digest ID].
    unfold yaml.omitempty_field. cbn [yaml.isZero yaml.encode yaml.string_repr].
    eexists. split; [done|].
    repeat case_bool_decide; subst; cbn [app];
      repeat split; intros; set_unfold; intuition congruence.
Qed.
(** C10. An existing, empty cache file loads as an empty map that is not
    nil, with no error; so when the file [resolveCacheFile] settles on is
    empty, and the daemon client is there or is not needed, [NewCache] returns
    the real cache over the empty map, not the no-op cache. The text layer is
    asked for one thing: that empty input holds no document. *)
Theorem empty_file_starts_real_cache (newDockerClient : newClient') runCtx local
    (deps : DependencyLister) w0 p w cl err w3 :
  yaml.parser "" = yaml.NoDocument →
  empty_file p w →
  retrieveArtifactCache p w = ((Some ∅, None), traced (EvReadFile p) w)
  ∧ (CacheArtifacts (Opts runCtx) = true →
     resolveCacheFile (CacheFile (Opts runCtx)) w0 = ((p, None), w) →
     newDockerClient runCtx (traced (EvReadFile p) w) = ((cl, err), w3) →
     local = false ∨ err = None →
     NewCache newDockerClient runCtx local deps w0
     = ((Some (ptr {| artifactCache := Some ∅; dependencies := deps;
                      client := cl;
                      insecureRegistries := InsecureRegistries runCtx;
                      cacheFile := p; imagesAreLocal := local |}), None), w3)).
Proof.
  intros Hempty Hfile.
  assert (Hret : retrieveArtifactCache p w
                 = ((Some ∅, None), traced (EvReadFile p) w)).
  { rewrite retrieveArtifactCache_run. unfold empty_file in Hfile.
    rewrite Hfile. unfold yaml.Unmarshal. by rewrite Hempty. }
  split; [done|]. intros Hon Hres Hcl Hok.
  rewrite (NewCache_loaded _ _ _ _ _ _ _ _ _ _ _ _ Hon Hres Hret Hcl).
  destruct Hok as [->| ->]; [done|]. by rewrite andb_false_r.
Qed.
End cache_claims.

(** * Properties of the fake daemon *)

Section fake_daemon.
Import testutil daemon.
Context `{!sha256.Impl} {ImageSummary : Type}.

Abbreviation Fake' := (@FakeAPIClient ImageSummary).

Lemma inspect_range_None ref order :
  inspect_range ref order = None ↔
  ∀ tag imageID, (tag, imageID) ∈ order → tag ≠ ref ∧ imageID ≠ ref.
Proof.
  induction order as [|[t i] order IH]; cbn.
  - split; [|done]. intros _ tag imageID Hin. by apply elem_of_nil in Hin.
  - destruct (decide (t = ref)) as [->|Ht].
    { rewrite bool_decide_true by done. cbn. split; [done|].
      intros Hall. destruct (Hall ref i) as [? _]; [left|done]. }
    rewrite (bool_decide_false (t = ref)) by done. cbn.
    destruct (decide (i = ref)) as [->|Hi].
    { rewrite bool_decide_true by done. split; [done|].
      intros Hall. destruct (Hall t ref) as [_ ?]; [left|done]. }
    rewrite bool_decide_false by done. rewrite IH. split.
    + intros Hall tag imageID [[= -> ->]|Hin]%elem_of_cons; [done|by apply Hall].
    + intros Hall tag imageID Hin. apply Hall. by right.
Qed.

Lemma inspect_range_Some ref order imageID :
  inspect_range ref order = Some imageID →
  ∃ tag, (tag, imageID) ∈ order ∧ (tag = ref ∨ imageID = ref).
Proof.
  induction order as [|[t i] order IH]; cbn; [done|].
  destruct (bool_decide (t = ref) || bool_decide (i = ref)) eqn:Hm.
  - intros [= ->]. exists t. split; [left|].
    apply orb_true_iff in Hm as [Hm|Hm]; apply bool_decide_eq_true in Hm; auto.
  - intros (tag & Hin & Hor)%IH. exists tag. split; [by right|done].
Qed.

(** Along any order of the map, the range finds an entry exactly when [ref]
    is a tag or an image id of the table. *)
Lemma inspect_range_known (f : Fake') order ref :
  range_order (TagToImageID f) order →
  is_Some (inspect_range ref order) ↔ known f ref.
Proof.
  unfold range_order, known. intros Hperm.
  assert (Hin : ∀ tag imageID, (tag, imageID) ∈ order ↔
                  go_lookup (TagToImageID f) tag = Some imageID).
  { intros tag imageID. rewrite Hperm, elem_of_map_to_list.
    by rewrite go_lookup_entries. }
  split.
  - intros [imageID Hsome]. apply inspect_range_Some in Hsome as (tag & Ht & Hor).
    exists tag, imageID. split; [by apply Hin|done].
  - intros (tag & imageID & Hl & Hor). apply Hin in Hl.
    destruct (inspect_range ref order) eqn:Hr; [done|].
    destruct (proj1 (inspect_range_None ref order) Hr tag imageID Hl) as [? ?].
    by destruct Hor.
Qed.

(** C6. Along any order in which the range may visit the table: with the
    forced-failure flag unset, [ImageInspectWithRaw] of a reference that is
    neither a tag nor an image id of the table returns an error whose
    [NotFound] method answers true, and of a reference that is one of them
    returns no error; with the flag set it returns an error that has no
    [NotFound] method, whatever the reference. *)
Theorem inspect_unknown_is_not_found (f : Fake') order ref :
  range_order (TagToImageID f) order →
  (ErrImageInspect f = false →
     (¬ known f ref →
        ∃ e, (ImageInspectWithRaw order ref f).2 = Some e
             ∧ NotFound e = Some true)
     ∧ (known f ref → (ImageInspectWithRaw order ref f).2 = None))
  ∧ (ErrImageInspect f = true →
     ∃ e, (ImageInspectWithRaw order ref f).2 = Some e ∧ NotFound e = None).
Proof.
  intros Horder. unfold ImageInspectWithRaw. split; intros ->.
  - pose proof (inspect_range_known f order ref Horder) as Hk.
    destruct (inspect_range ref order) as [imageID|]; cbn.
    + split; [|done]. intros Hnot. destruct Hnot. by apply Hk.
    + split; [by eexists|]. intros Hknown. apply Hk in Hknown. by destruct Hknown.
  - by eexists.
Qed.
Lemma tagged_known (f : Fake') ref : tagged f ref → known f ref.
Proof. intros [imageID Hl]. exists ref, imageID. auto. Qed.

Lemma known_tagged (f : Fake') ref : ids_are_tags f → known f ref → tagged f ref.
Proof.
  intros Hinv (tag & imageID & Hl & [->| ->]); [by eexists|by eapply Hinv].
Qed.

(** C8. In the fake whose only forced failure is that of [op], a call of [op]
    returns an ordinary error, and a call of any of the four other operations
    returns none whenever it could without any flag: build, push and pull
    always, inspect of a known reference, tag of a tagged source. *)
Theorem forced_failure_hits_one_operation (op : Operation) (f : Fake')
    (c : Call) :
  well_ordered c f →
  (operation c = op →
     ∃ e, failure c (force op f) = Some e ∧ NotFound e = None)
  ∧ (operation c ≠ op →
     (failure c (force op f) = None ↔ feasible c f)).
Proof.
  intros Horder. split.
  - intros <-. destruct c; cbn; by eexists.
  - intros Hne. destruct c as [options|order ref|image ref|ref|ref]; cbn in *.
    + unfold ImageBuild. cbn. rewrite bool_decide_false by congruence. done.
    + unfold ImageInspectWithRaw. cbn. rewrite bool_decide_false by congruence.
      pose proof (inspect_range_known f order ref Horder) as Hk.
      destruct (inspect_range ref order) as [imageID|]; cbn.
      * split; [intros _; by apply Hk|done].
      * split; [done|]. intros Hknown. apply Hk in Hknown. by destruct Hknown.
    + unfold ImageTag, tagged. cbn. rewrite bool_decide_false by congruence.
      destruct (go_lookup (TagToImageID f) image); cbn.
      * split; [by eexists|done].
      * split; [done|]. by intros [? ?].
    + unfold ImagePush. cbn. rewrite bool_decide_false by congruence. done.
    + unfold ImagePull. cbn. rewrite bool_decide_false by congruence. done.
Qed.

(** The fake keeps its image ids among its tags. *)
Lemma build_tag_keeps_keys imageID (tags : gmap string string) tag k :
  is_Some (tags !! k) → is_Some (build_tag imageID tags tag !! k).
Proof.
  intros Hk. unfold build_tag.
  assert (is_Some (<[tag := imageID]> tags !! k)).
  { rewrite lookup_insert. by case_decide. }
  destruct (negb _); [|done]. rewrite lookup_insert. by case_decide.
Qed.

Lemma build_tag_values imageID (tags : gmap string string) tag k v :
  build_tag imageID tags tag !! k = Some v → v = imageID ∨ tags !! k = Some v.
Proof.
  unfold build_tag. destruct (negb _).
  - rewrite lookup_insert. case_decide; [intros [= <-]; by left|].
    rewrite lookup_insert. case_decide; [intros [= <-]; by left|by right].
  - rewrite lookup_insert. case_decide; [intros [= <-]; by left|by right].
Qed.

Lemma foldl_build_tag imageID l (tags : gmap string string) :
  (∀ k, is_Some (tags !! k) → is_Some (foldl (build_tag imageID) tags l !! k))
  ∧ (∀ k v, foldl (build_tag imageID) tags l !! k = Some v →
       v = imageID ∨ tags !! k = Some v).
Proof.
  revert tags. induction l as [|tag l IH]; intros tags; cbn; [by auto|].
  destruct (IH (build_tag imageID tags tag)) as [Hkeys Hvals]. split.
  - intros k Hk. by apply Hkeys, build_tag_keeps_keys.
  - intros k v Hkv. apply Hvals in Hkv as [->|Hkv]; [by left|].
    by apply build_tag_values in Hkv.
Qed.

Lemma ImageBuild_ids_are_tags (f : Fake') options :
  ids_are_tags f → ids_are_tags (ImageBuild options f).2.
Proof.
  intros Hinv. unfold ImageBuild. destruct (ErrImageBuild f); [done|].
  cbn [snd]. unfold ids_are_tags, tagged. cbn [TagToImageID go_lookup].
  set (imageID := "sha256:" +:+ pretty (int_incr (nextImageID f))).
  set (old := match TagToImageID f with Some t => t | None => ∅ end).
  destruct (foldl_build_tag imageID (types.Tags options)
              (<[imageID := imageID]> old)) as [Hkeys Hvals].
  intros tag v Hl. apply Hvals in Hl as [->|Hl].
  - apply Hkeys. rewrite lookup_insert_eq. by eexists.
  - apply Hkeys. rewrite lookup_insert in Hl.
    case_decide; [injection Hl as <-; rewrite lookup_insert_eq; by eexists|].
    rewrite lookup_insert. case_decide; [by eexists|].
    assert (Hold : go_lookup (TagToImageID f) tag = Some v).
    { subst old. destruct (TagToImageID f); [done|]. by rewrite lookup_empty in Hl. }
    destruct (Hinv _ _ Hold) as [x Hx]. exists x.
    subst old. by destruct (TagToImageID f).
Qed.

Lemma ImageTag_ids_are_tags (f : Fake') image ref :
  ids_are_tags f → ids_are_tags (ImageTag image ref f).2.
Proof.
  intros Hinv. unfold ImageTag. destruct (ErrImageTag f); [done|].
  destruct (go_lookup (TagToImageID f) image) as [imageID|] eqn:Hl; [|done].
  destruct (TagToImageID f) as [tags|] eqn:Htags; [|done].
  unfold ids_are_tags, tagged in *. rewrite Htags in Hinv. cbn in *.
  assert (Hkeep : ∀ k, is_Some (tags !! k) → is_Some (<[ref := imageID]> tags !! k)).
  { intros k Hk. rewrite lookup_insert. by case_decide. }
  intros tag v. rewrite lookup_insert. case_decide.
  - intros [= <-]. apply Hkeep. by eapply Hinv.
  - intros Hv. apply Hkeep. by eapply Hinv.
Qed.
End fake_daemon.

(** * The theorems at work on the example data *)

Section examples.
Import os runcontext cache cachefile testutil daemon example scenario.

Lemma C1_counterexample :
  (NewCache (H := plain.text) (H0 := plain.join) (H1 := plain.dirs)
     no_daemon enabled true tt started).1
  = (None, Some (withMessage refused "getting local Docker client"))
  ∧ (NewCache (H := plain.text) (H0 := plain.join) (H1 := plain.dirs)
       no_daemon enabled true tt started).1
    ≠ (Some noCache, None).
Proof. split; [vm_compute; reflexivity|vm_compute; discriminate]. Qed.

Lemma C1_witness :
  ∃ w3,
    NewCache (H := plain.text) (H0 := plain.join) (H1 := plain.dirs)
      no_daemon enabled true tt started
    = ((None, Some (withMessage refused "getting local Docker client")), w3)
    ∧ NewCache (H := plain.text) (H0 := plain.join) (H1 := plain.dirs)
        no_daemon enabled false tt started
      = ((Some (ptr {| artifactCache := Some ∅; dependencies := tt;
                       client := None; insecureRegistries := None;
                       cacheFile := path; imagesAreLocal := false |}), None),
         w3).
Proof.
  eexists.
  apply (NewCache_client_failure (H := plain.text) (H0 := plain.join)
           (H1 := plain.dirs) no_daemon enabled tt started path
           (resolveCacheFile (H0 := plain.join) (H1 := plain.dirs) path started).2
           (Some ∅)
           (retrieveArtifactCache (H := plain.text) path
              (resolveCacheFile (H0 := plain.join) (H1 := plain.dirs) path
                 started).2).2
           None refused);
    vm_compute; reflexivity.
Defined.

Lemma C2_counterexample :
  missing path fresh
  ∧ (NewCache (H := plain.text) (H0 := plain.join) (H1 := plain.dirs)
       local_daemon enabled true tt fresh).1
    = (Some (ptr {| artifactCache := Some ∅; dependencies := tt;
                    client := Some tt; insecureRegistries := None;
                    cacheFile := path; imagesAreLocal := true |}), None)
  ∧ (NewCache (H := plain.text) (H0 := plain.join) (H1 := plain.dirs)
       local_daemon enabled true tt fresh).1
    ≠ (Some noCache, None).
Proof.
  split; [vm_compute; reflexivity|].
  split; [vm_compute; reflexivity|vm_compute; discriminate].
Qed.

Lemma C2_witness :
  (∃ w' l,
     NewCache (H := plain.text) (H0 := plain.join) (H1 := plain.dirs)
       local_daemon enabled true tt garbled = ((Some noCache, None), w')
     ∧ log w' = log (resolveCacheFile (H0 := plain.join) (H1 := plain.dirs)
                       path garbled).2 ++ [l]
     ∧ level l = "warning"
     ∧ nodes w' = nodes (resolveCacheFile (H0 := plain.join)
                           (H1 := plain.dirs) path garbled).2)
  ∧ (∃ w' l,
       NewCache (H := plain.text) (H0 := plain.join) (H1 := plain.dirs)
         local_daemon enabled true tt blocked = ((Some noCache, None), w')
       ∧ log w' = log (resolveCacheFile (H0 := plain.join) (H1 := plain.dirs)
                         path blocked).2 ++ [l]
       ∧ level l = "warning"
       ∧ nodes w' = nodes (resolveCacheFile (H0 := plain.join)
                             (H1 := plain.dirs) path blocked).2)
  ∧ (∃ w' l,
       NewCache (H := plain.text) (H0 := plain.join) (H1 := plain.dirs)
         local_daemon enabled true tt sealed = ((Some noCache, None), w')
       ∧ log w' = log (resolveCacheFile (H0 := plain.join) (H1 := plain.dirs)
                         path sealed).2 ++ [l]
       ∧ level l = "warning"
       ∧ nodes w' = nodes (resolveCacheFile (H0 := plain.join)
                             (H1 := plain.dirs) path sealed).2).
Proof.
  split; [|split].
  - apply (NewCache_bad_file_disables (H := plain.text) (H0 := plain.join)
             (H1 := plain.dirs) local_daemon enabled true tt garbled path None).
    + reflexivity.
    + vm_compute; reflexivity.
    + right; right. exists "3f2a: digest: sha256:abc".
      split; vm_compute; [reflexivity|exact I].
  - apply (NewCache_bad_file_disables (H := plain.text) (H0 := plain.join)
             (H1 := plain.dirs) local_daemon enabled true tt blocked path None).
    + reflexivity.
    + vm_compute; reflexivity.
    + right; left. right. vm_compute; reflexivity.
  - apply (NewCache_bad_file_disables (H := plain.text) (H0 := plain.join)
             (H1 := plain.dirs) local_daemon enabled true tt sealed path
             (Some (withMessage (PathError "open" path EACCES) "creating file"))).
    + reflexivity.
    + vm_compute; reflexivity.
    + left. discriminate.
Defined.




Lemma C5_witness :
  NewCache (H := plain.text) (H0 := plain.join) (H1 := plain.dirs)
    local_daemon disabled true tt started = ((Some noCache, None), started)
  ∧ ∀ (artifacts : list string) w0,
      noCache_RetrieveCachedArtifacts (BuildArtifact := string) artifacts w0
      = ((artifacts, [], None), w0).
Proof.
  apply (NewCache_disabled (H := plain.text) (H0 := plain.join)
           (H1 := plain.dirs) local_daemon disabled true tt started).
  reflexivity.
Defined.

Lemma C9_witness :
  ∃ pairs,
    nodes (saveArtifactCache (H := plain.text) path artifacts garbled).2 !! path
    = Some (File true (yaml.emitter (Text := plain.text) (yaml.Mapping pairs)))
    ∧ NoDup (pairs.*1)
    ∧ (∀ kn vn, (kn, vn) ∈ pairs ↔
         ∃ k d, go_lookup artifacts k = Some d ∧ kn = yaml.Scalar k
                ∧ vn = yaml.encode d)
    ∧ ∀ d : ImageDetails, ∃ fields,
        yaml.encode d = yaml.Mapping fields
        ∧ (∀ v, (yaml.Scalar "digest", v) ∈ fields ↔
             Digest d ≠ "" ∧ v = yaml.Scalar (Digest d))
        ∧ (∀ v, (yaml.Scalar "id", v) ∈ fields ↔
             ID d ≠ "" ∧ v = yaml.Scalar (ID d))
        ∧ (∀ kn v, (kn, v) ∈ fields →
             kn = yaml.Scalar "digest" ∨ kn = yaml.Scalar "id").
Proof.
  apply (saved_file_content (H := plain.text) artifacts path garbled).
  vm_compute; reflexivity.
Defined.

Lemma C10_witness :
  retrieveArtifactCache (H := plain.text) path started
  = ((Some ∅, None), traced (EvReadFile path) started)
  ∧ NewCache (H := plain.text) (H0 := plain.join) (H1 := plain.dirs)
      local_daemon enabled true tt fresh
    = ((Some (ptr {| artifactCache := Some ∅; dependencies := tt;
                     client := Some tt; insecureRegistries := None;
                     cacheFile := path; imagesAreLocal := true |}), None),
       traced (EvReadFile path)
         (resolveCacheFile (H0 := plain.join) (H1 := plain.dirs) path fresh).2).
Proof.
  split.
  - apply (empty_file_starts_real_cache (H := plain.text) (H0 := plain.join)
             (H1 := plain.dirs) local_daemon enabled true tt started path started
             (Some tt) None (traced (EvReadFile path) started));
      vm_compute; reflexivity.
  - apply (empty_file_starts_real_cache (H := plain.text) (H0 := plain.join)
             (H1 := plain.dirs) local_daemon enabled true tt fresh path
             (resolveCacheFile (H0 := plain.join) (H1 := plain.dirs) path fresh).2
             (Some tt) None);
      try (vm_compute; reflexivity).
    right; reflexivity.
Defined.

Lemma C6_witness :
  (∃ e, (ImageInspectWithRaw visit "other" fake).2 = Some e
        ∧ NotFound e = Some true)
  ∧ (ImageInspectWithRaw visit "sha256:1" fake).2 = None
  ∧ (∃ e, (ImageInspectWithRaw visit "app" fake_inspect_fails).2 = Some e
          ∧ NotFound e = None).
Proof.
  assert (Horder : range_order (TagToImageID fake) visit)
    by (unfold range_order, visit; reflexivity).
  split; [|split].
  - apply (inspect_unknown_is_not_found fake visit "other");
      [exact Horder|reflexivity|].
    intros Hknown. apply (inspect_range_known fake visit "other" Horder) in Hknown.
    vm_compute in Hknown. by destruct Hknown.
  - apply (inspect_unknown_is_not_found fake visit "sha256:1");
      [exact Horder|reflexivity|].
    exists "app", "sha256:1". split; [vm_compute; reflexivity|by right].
  - apply (inspect_unknown_is_not_found fake_inspect_fails
             visit "app"); [exact Horder|reflexivity].
Defined.

Lemma C8_witness :
  (∃ e, failure (H := plain.zeros) (CallInspect visit "app") (force Inspect fake)
        = Some e ∧ NotFound e = None)
  ∧ failure (H := plain.zeros) (CallTag "app" "app:v2") (force Inspect fake) = None
  ∧ failure (H := plain.zeros) (CallPush "app") (force Inspect fake) = None
  ∧ failure (H := plain.zeros) (CallInspect visit "app") (force Pull fake) = None.
Proof.
  assert (Horder : range_order (TagToImageID fake) visit)
    by (unfold range_order, visit; reflexivity).
  split; [|split; [|split]].
  - by apply (forced_failure_hits_one_operation (H := plain.zeros) Inspect fake
                (CallInspect visit "app")).
  - apply (forced_failure_hits_one_operation (H := plain.zeros) Inspect fake
             (CallTag "app" "app:v2")); [exact I|discriminate|].
    exists "sha256:1". vm_compute; reflexivity.
  - by apply (forced_failure_hits_one_operation (H := plain.zeros) Inspect fake
                (CallPush "app")).
  - apply (forced_failure_hits_one_operation (H := plain.zeros) Pull fake
             (CallInspect visit "app")); [exact Horder|discriminate|].
    exists "app", "sha256:1". split; [vm_compute; reflexivity|by left].
Defined.
End examples.

(** * Further properties of the cache store *)

Section cache_more.
Import os runcontext cache cachefile.
Context `{!yaml.Text} `{!filepath.Impl} `{!constants.Values}.
Context {LocalDaemon DependencyLister : Type}.

Abbreviation newClient'' := (RunContext → M (option LocalDaemon * option error)).

(** X1. [NewCache] has three outcomes and no other: the no-op cache with no
    error; a real cache with no error, which keeps the [imagesAreLocal] and
    the insecure registries it was given; or no cache and the error wrapped
    as "getting local Docker client", which happens only with caching enabled
    and [imagesAreLocal] true. It never returns neither or both. *)
Theorem NewCache_outcomes (newDockerClient : newClient'') runCtx local
    (deps : DependencyLister) w :
  (NewCache newDockerClient runCtx local deps w).1 = (Some noCache, None)
  ∨ (∃ c, (NewCache newDockerClient runCtx local deps w).1 = (Some (ptr c), None)
          ∧ CacheArtifacts (Opts runCtx) = true
          ∧ imagesAreLocal c = local
          ∧ dependencies c = deps
          ∧ insecureRegistries c = InsecureRegistries runCtx)
  ∨ (∃ e, (NewCache newDockerClient runCtx local deps w).1
          = (None, Some (withMessage e "getting local Docker client"))
          ∧ CacheArtifacts (Opts runCtx) = true ∧ local = true).
Proof.
  destruct (CacheArtifacts (Opts runCtx)) eqn:Hon;
    [|left; unfold NewCache; by rewrite Hon].
  destruct (resolveCacheFile (CacheFile (Opts runCtx)) w) as [[p [e|]] w1] eqn:Hres.
  { left. by erewrite NewCache_resolve_failed. }
  destruct (retrieveArtifactCache p w1) as [[c [e|]] w2] eqn:Hret.
  { left. by erewrite NewCache_retrieve_failed. }
  destruct (newDockerClient runCtx w2) as [[cl err] w3] eqn:Hcl.
  rewrite (NewCache_loaded _ _ _ _ _ _ _ _ _ _ _ _ Hon Hres Hret Hcl).
  destruct local, err as [e|]; cbn.
  - right; right. by exists e.
  - right; left. by eexists.
  - right; left. by eexists.
  - right; left. by eexists.
Qed.

(** X2. When [NewCache] answers with the no-op cache, it has not asked for a
    daemon client: with any other [newDockerClient] it gives the same answer
    and leaves the same world. *)
Theorem NewCache_noop_without_client (client1 client2 : newClient'') runCtx local
    (deps : DependencyLister) w w' :
  NewCache client1 runCtx local deps w = ((Some noCache, None), w') →
  NewCache client2 runCtx local deps w = ((Some noCache, None), w').
Proof.
  destruct (CacheArtifacts (Opts runCtx)) eqn:Hon;
    [|unfold NewCache; by rewrite Hon].
  destruct (resolveCacheFile (CacheFile (Opts runCtx)) w) as [[p [e|]] w1] eqn:Hres.
  { by rewrite !(NewCache_resolve_failed _ _ _ _ _ _ _ _ Hon Hres). }
  destruct (retrieveArtifactCache p w1) as [[c [e|]] w2] eqn:Hret.
  { by rewrite !(NewCache_retrieve_failed _ _ _ _ _ _ _ _ _ _ Hon Hres Hret). }
  destruct (client1 runCtx w2) as [[cl err] w3] eqn:Hcl.
  rewrite (NewCache_loaded _ _ _ _ _ _ _ _ _ _ _ _ Hon Hres Hret Hcl).
  by destruct (local && bool_decide (err ≠ None)).
Qed.

(** X3. With no explicit cache file and no home directory,
    [resolveCacheFile] returns the empty path and the error wrapped as
    "retrieving home directory" without a call to the file system, and
    [NewCache], caching enabled, answers with the no-op cache after one
    warning that carries that error. *)
Theorem no_home_directory (newDockerClient : newClient'') runCtx local
    (deps : DependencyLister) w dir e :
  CacheArtifacts (Opts runCtx) = true →
  CacheFile (Opts runCtx) = "" →
  home w = (dir, Some e) →
  resolveCacheFile "" w
  = (("", Some (withMessage e "retrieving home directory")), traced EvHomeDir w)
  ∧ NewCache newDockerClient runCtx local deps w
    = ((Some noCache, None),
       logged {| level := "warning";
                 format := "Error resolving cache file, not using skaffold cache: %v";
                 arg := withMessage e "retrieving home directory" |}
         (traced EvHomeDir w)).
Proof.
  intros Hon Hfile Hhome.
  assert (Hres : resolveCacheFile "" w
    = (("", Some (withMessage e "retrieving home directory")), traced EvHomeDir w))
    by (by rewrite resolveCacheFile_default, Hhome).
  split; [done|].
  apply NewCache_resolve_failed with (p := ""); [done|by rewrite Hfile].
Qed.

(** X6. The cache one session saves is the cache the next one starts with,
    for a map [m] with no entry under the key << whose document the yaml
    text layer reads back as it emitted it: after a save of [m] at [p], if
    the file can be read, [resolveCacheFile] settles on [p] and leaves the
    file as it is and the daemon client is there, [NewCache] returns the
    real cache over the entries of [m], with [p] as its file. *)
Theorem saved_cache_is_next_session (newDockerClient : newClient'') runCtx local
    (deps : DependencyLister) (m : ArtifactCache) p w w' w1 cl w3 :
  go_lookup m "<<" = None →
  yaml.parser (yaml.emitter (yaml.encode m)) = yaml.Document (yaml.encode m) →
  saveArtifactCache p m w = (None, w') →
  (ioutil.ReadFile p w').1.2 = None →
  CacheArtifacts (Opts runCtx) = true →
  resolveCacheFile (CacheFile (Opts runCtx)) w' = ((p, None), w1) →
  nodes w1 !! p = nodes w' !! p →
  newDockerClient runCtx (traced (EvReadFile p) w1) = ((cl, None), w3) →
  NewCache newDockerClient runCtx local deps w'
  = ((Some (ptr {| artifactCache := Some (go_entries m); dependencies := deps;
                   client := cl;
                   insecureRegistries := InsecureRegistries runCtx;
                   cacheFile := p; imagesAreLocal := local |}), None), w3).
Proof.
  intros Hplain Htext Hsave _ Hon Hres Hsame Hcl.
  apply saveArtifactCache_ok in Hsave as ->.
  assert (Hret : retrieveArtifactCache p w1
                 = ((Some (go_entries m), None), traced (EvReadFile p) w1)).
  { rewrite retrieveArtifactCache_run, Hsame. cbn [nodes stored traced].
    rewrite lookup_insert_eq. unfold yaml.Unmarshal.
    by rewrite Htext, ArtifactCache_decode_encode. }
  rewrite (NewCache_loaded _ _ _ _ _ _ _ _ _ _ _ _ Hon Hres Hret Hcl).
  cbn. by rewrite andb_false_r.
Qed.

(** X19. Loading only reads: [retrieveArtifactCache] changes no file and
    logs nothing, its one call is the read of its path, a load that returns
    an error returns the nil map with it, and a second load right after
    returns what the first did. *)
Theorem retrieveArtifactCache_only_reads p w :
  nodes (retrieveArtifactCache p w).2 = nodes w
  ∧ log (retrieveArtifactCache p w).2 = log w
  ∧ trace (retrieveArtifactCache p w).2 = trace w ++ [EvReadFile p]
  ∧ ((retrieveArtifactCache p w).1.2 ≠ None →
       (retrieveArtifactCache p w).1.1 = None)
  ∧ (retrieveArtifactCache p (retrieveArtifactCache p w).2).1
    = (retrieveArtifactCache p w).1.
Proof.
  rewrite !retrieveArtifactCache_run. cbn [fst snd nodes log trace traced].
  repeat split.
  destruct (nodes w !! p) as [[[] data|]|]; cbn; try done.
  by destruct (yaml.Unmarshal data _) as [c [e|]].
Qed.
End cache_more.

(** * Further properties of the fake daemon *)

Section fake_more.
Import testutil daemon calls.
Context `{!sha256.Impl} {ImageSummary : Type}.

Abbreviation Fake'' := (@FakeAPIClient ImageSummary).

Lemma build_tag_keeps_id imageID (tags : gmap string string) tag k :
  tags !! k = Some imageID → build_tag imageID tags tag !! k = Some imageID.
Proof.
  intros Hk. unfold build_tag.
  assert (<[tag := imageID]> tags !! k = Some imageID).
  { rewrite lookup_insert. by case_decide. }
  destruct (negb _); [|done]. rewrite lookup_insert. by case_decide.
Qed.

Lemma build_tag_sets imageID (tags : gmap string string) tag :
  build_tag imageID tags tag !! tag = Some imageID
  ∧ (strings.Contains tag ":" = false →
       build_tag imageID tags tag !! (tag +:+ ":latest") = Some imageID).
Proof.
  unfold build_tag. destruct (strings.Contains tag ":"); cbn.
  - split; [apply lookup_insert_eq|done].
  - split; [|intros _; apply lookup_insert_eq].
    rewrite lookup_insert. case_decide; [done|apply lookup_insert_eq].
Qed.


Lemma foldl_build_tag_keeps_id imageID l (tags : gmap string string) k :
  tags !! k = Some imageID → foldl (build_tag imageID) tags l !! k = Some imageID.
Proof.
  revert tags. induction l as [|tag l IH]; intros tags Hk; [done|].
  cbn. by apply IH, build_tag_keeps_id.
Qed.

Lemma foldl_build_tag_sets imageID l (tags : gmap string string) tag :
  tag ∈ l →
  foldl (build_tag imageID) tags l !! tag = Some imageID
  ∧ (strings.Contains tag ":" = false →
       foldl (build_tag imageID) tags l !! (tag +:+ ":latest") = Some imageID).
Proof.
  revert tags. induction l as [|t l IH]; intros tags Hin;
    [by apply elem_of_nil in Hin|].
  cbn. apply elem_of_cons in Hin as [->|Hin]; [|by apply IH].
  destruct (build_tag_sets imageID tags t) as [Htag Halias]. split.
  - by apply foldl_build_tag_keeps_id.
  - intros Hno. by apply foldl_build_tag_keeps_id, Halias.
Qed.



Lemma int_incr_changes n : int_incr n ≠ n.
Proof.
  unfold int_incr. intros Heq.
  pose proof (Z.mod_pos_bound (n + 1 + 2 ^ 63) (2 ^ 64)) as Hb.
  assert (Hin : (0 ≤ n + 2 ^ 63 < 2 ^ 64)%Z) by lia.
  assert (Hmod : ((n + 1 + 2 ^ 63) `mod` 2 ^ 64 = n + 2 ^ 63)%Z) by lia.
  destruct (decide (n + 1 + 2 ^ 63 < 2 ^ 64)%Z) as [Hlt|Hge].
  - rewrite Z.mod_small in Hmod by lia. lia.
  - assert (n + 1 + 2 ^ 63 = 2 ^ 64)%Z as Hfull by lia.
    rewrite Hfull, Z.mod_same in Hmod by lia. lia.
Qed.

(** X8. Two builds in a row never give the same image id: the id of the
    build that follows a successful build differs from that build's id, also
    when the counter wraps around. *)
Theorem consecutive_builds_differ (f : Fake'') options :
  ErrImageBuild f = false →
  next_id (ImageBuild options f).2 ≠ next_id f.
Proof.
  intros Hflag. unfold ImageBuild, next_id. rewrite Hflag. cbn [snd nextImageID].
  intros Heq. apply (inj (String.app "sha256:")) in Heq.
  apply (inj pretty) in Heq. by apply int_incr_changes in Heq.
Qed.

(** X9. A call that returns an error has changed nothing: the fake is as it
    was, whether the failure was forced or the source of a tag was not
    found. *)
Theorem failed_call_changes_nothing (c : Call) (f : Fake'') :
  failure c f ≠ None → after c f = f.
Proof.
  destruct c as [options|order ref|image ref|ref|ref]; cbn; [|done|..].
  - unfold ImageBuild. by destruct (ErrImageBuild f).
  - unfold ImageTag. destruct (ErrImageTag f); [done|].
    by destruct (go_lookup (TagToImageID f) image).
  - unfold ImagePush. by destruct (ErrImagePush f).
  - unfold ImagePull. by destruct (ErrImagePull f).
Qed.

(** X10. The four lists of the fake are a faithful log: a call appends to
    [Built], [Tagged], [PushedImages] and [Pushed] what it is a build, tag or
    push of, once, when it returns no error, and nothing otherwise; no call
    changes a failure flag, the repo digests or the image summaries. *)
Theorem calls_are_logged (c : Call) (f : Fake'') :
  Built (after c f)
  = Built f ++ (if failure c f is None then recorded_build c else [])
  ∧ Tagged (after c f)
    = Tagged f ++ (if failure c f is None then recorded_tag c else [])
  ∧ PushedImages (after c f)
    = PushedImages f ++ (if failure c f is None then recorded_push c else [])
  ∧ Pushed (after c f)
    = Pushed f ++ (if failure c f is None then recorded_digest c f else [])
  ∧ (ErrImageBuild (after c f), ErrImageInspect (after c f),
     ErrImageTag (after c f), ErrImagePush (after c f),
     ErrImagePull (after c f), ErrStream (after c f))
    = (ErrImageBuild f, ErrImageInspect f, ErrImageTag f, ErrImagePush f,
       ErrImagePull f, ErrStream f)
  ∧ RepoDigests (after c f) = RepoDigests f
  ∧ ImageSummaries (after c f) = ImageSummaries f.
Proof.
  destruct c as [options|order ref|image ref|ref|ref]; cbn.
  - unfold ImageBuild. destruct (ErrImageBuild f) eqn:E; cbn;
      rewrite ?app_nil_r, ?E; done.
  - destruct (ImageInspectWithRaw order ref f).2; by rewrite ?app_nil_r.
  - unfold ImageTag. destruct (ErrImageTag f) eqn:E; cbn;
      [by rewrite ?app_nil_r, ?E|].
    destruct (go_lookup (TagToImageID f) image); cbn;
      rewrite ?app_nil_r, ?E; done.
  - unfold ImagePush, push_digest. destruct (ErrImagePush f) eqn:E; cbn;
      rewrite ?app_nil_r, ?E; done.
  - unfold ImagePull. destruct (ErrImagePull f) eqn:E; cbn;
      rewrite ?app_nil_r, ?E; done.
Qed.

(** X11. Every call keeps the image ids of the table among its tags: if each
    image id is a tag before a call, each is one after it. *)
Theorem calls_keep_ids_tagged (c : Call) (f : Fake'') :
  ids_are_tags f → ids_are_tags (after c f).
Proof.
  intros Hinv. destruct c as [options|order ref|image ref|ref|ref]; cbn.
  - by apply ImageBuild_ids_are_tags.
  - done.
  - by apply ImageTag_ids_are_tags.
  - unfold ImagePush. by destruct (ErrImagePush f).
  - unfold ImagePull. by destruct (ErrImagePull f).
Qed.

(** What the range of inspect returns is the image id of [ref] as a tag, or
    [ref] itself found as an image id. *)
Lemma inspect_range_result (f : Fake'') order ref imageID :
  range_order (TagToImageID f) order →
  inspect_range ref order = Some imageID →
  go_lookup (TagToImageID f) ref = Some imageID
  ∨ (imageID = ref ∧ ∃ tag, go_lookup (TagToImageID f) tag = Some ref).
Proof.
  unfold range_order. intros Hperm Hsome.
  apply inspect_range_Some in Hsome as (tag & Hin & Hor).
  rewrite Hperm, elem_of_map_to_list, <- go_lookup_entries in Hin.
  destruct Hor as [->| ->]; [by left|right]. split; [done|by exists tag].
Qed.

Lemma inspect_range_tag (f : Fake'') order ref imageID :
  range_order (TagToImageID f) order →
  go_lookup (TagToImageID f) ref = Some imageID →
  (∀ tag, go_lookup (TagToImageID f) tag = Some ref → imageID = ref) →
  inspect_range ref order = Some imageID.
Proof.
  intros Horder Hl Hids.
  assert (Hk : known f ref) by (exists ref, imageID; auto).
  apply (inspect_range_known f order ref Horder) in Hk as [x Hx].
  rewrite Hx. f_equal.
  destruct (inspect_range_result f order ref x Horder Hx) as [Hl'|[-> [tag Ht]]].
  - congruence.
  - symmetry. by eapply Hids.
Qed.

(** C7, as amended. With no forced tag failure, [ImageTag] returns an error
    exactly when the source reference is not a tag of the table; in a table
    where every image id is a tag as well, as [ImageBuild] enters them, that
    is exactly when the source is unknown to the daemon, neither a tag nor an
    image id for inspect. When it returns none, the target is a tag for the
    image id the source has, the source keeps it, no other tag changes, the
    target is appended to [Tagged], and inspect of the target returns that
    id in every order, unless the target is also the image id of an entry
    with another id. *)
Theorem ImageTag_fails_iff_untagged (f : Fake'') image ref :
  ErrImageTag f = false →
  ((ImageTag image ref f).1 ≠ None ↔ ¬ tagged f image)
  ∧ (ids_are_tags f → ((ImageTag image ref f).1 ≠ None ↔ ¬ known f image))
  ∧ ((ImageTag image ref f).1 = None →
     ∃ imageID,
       go_lookup (TagToImageID f) image = Some imageID
       ∧ go_lookup (TagToImageID (ImageTag image ref f).2) ref = Some imageID
       ∧ go_lookup (TagToImageID (ImageTag image ref f).2) image = Some imageID
       ∧ (∀ t, t ≠ ref →
            go_lookup (TagToImageID (ImageTag image ref f).2) t
            = go_lookup (TagToImageID f) t)
       ∧ Tagged (ImageTag image ref f).2 = Tagged f ++ [ref]
       ∧ (∀ order,
            ErrImageInspect f = false →
            range_order (TagToImageID (ImageTag image ref f).2) order →
            (∀ tag, go_lookup (TagToImageID (ImageTag image ref f).2) tag
                    = Some ref → imageID = ref) →
            types.ID (ImageInspectWithRaw order ref (ImageTag image ref f).2).1.1
            = imageID
            ∧ (ImageInspectWithRaw order ref (ImageTag image ref f).2).2 = None)).
Proof.
  intros Hflag.
  assert (Hcases :
    match go_lookup (TagToImageID f) image with
    | Some imageID =>
        (ImageTag image ref f).1 = None
        ∧ go_lookup (TagToImageID (ImageTag image ref f).2) ref = Some imageID
        ∧ (∀ t, t ≠ ref →
             go_lookup (TagToImageID (ImageTag image ref f).2) t
             = go_lookup (TagToImageID f) t)
        ∧ Tagged (ImageTag image ref f).2 = Tagged f ++ [ref]
        ∧ ErrImageInspect (ImageTag image ref f).2 = ErrImageInspect f
    | None => (ImageTag image ref f).1 ≠ None
    end).
  { unfold ImageTag. rewrite Hflag.
    destruct (go_lookup (TagToImageID f) image) as [imageID|] eqn:Hl; [|done].
    cbn. destruct (TagToImageID f) as [tags|]; [|done]. cbn.
    split; [done|]. split; [apply lookup_insert_eq|]. split; [|done].
    intros t Hne. by rewrite lookup_insert_ne. }
  assert (Htagged : (ImageTag image ref f).1 ≠ None ↔ ¬ tagged f image).
  { unfold tagged.
    destruct (go_lookup (TagToImageID f) image) as [imageID|] eqn:Hl.
    - destruct Hcases as (Hok & _). rewrite Hok. split; [done|].
      intros Hnot. destruct Hnot. by eexists.
    - split; [|done]. by intros _ [? ?]. }
  split; [exact Htagged|]. split.
  - intros Hinv. rewrite Htagged. split; intros Hnot Hyes; apply Hnot.
    + by apply known_tagged.
    + by apply tagged_known.
  - intros Hnone.
    destruct (go_lookup (TagToImageID f) image) as [imageID|] eqn:Hl; [|done].
    destruct Hcases as (_ & Href & Hrest & Hlog & Hsame).
    exists imageID. split; [done|]. split; [done|]. split.
    { destruct (decide (image = ref)) as [->|Hne]; [done|]. by rewrite Hrest. }
    split; [done|]. split; [done|].
    intros order Hinspect Horder Hids.
    unfold ImageInspectWithRaw. rewrite Hsame, Hinspect.
    by rewrite (inspect_range_tag _ order ref imageID Horder Href Hids).
Qed.

(** X12. Inspect resolves a tag to its image id, whatever the order in which
    the table is visited, as long as the reference is not also the image id
    of an entry with another id; the raw text carries the same id. *)
Theorem inspect_resolves_tag (f : Fake'') order ref imageID :
  range_order (TagToImageID f) order →
  ErrImageInspect f = false →
  go_lookup (TagToImageID f) ref = Some imageID →
  (∀ tag, go_lookup (TagToImageID f) tag = Some ref → imageID = ref) →
  ImageInspectWithRaw order ref f
  = ({| types.ID := imageID; types.RepoDigests := RepoDigests f |},
     "{" +:+ dq +:+ "Config" +:+ dq +:+ ":{" +:+ dq +:+ "Image" +:+ dq +:+ ":"
       +:+ dq +:+ imageID +:+ dq +:+ "}}",
     None).
Proof.
  intros Horder Hflag Hl Hids. unfold ImageInspectWithRaw. rewrite Hflag.
  by rewrite (inspect_range_tag f order ref imageID Horder Hl Hids).
Qed.

(** X13. What inspect has found can be tagged: in a table whose image ids
    are tags, when inspect of a reference returns no error, a tag of the id
    it returned onto any target returns no error either. *)
Theorem inspected_image_can_be_tagged (f : Fake'') order ref target :
  ids_are_tags f →
  ErrImageTag f = false →
  range_order (TagToImageID f) order →
  (ImageInspectWithRaw order ref f).2 = None →
  (ImageTag (types.ID (ImageInspectWithRaw order ref f).1.1) target f).1 = None
  ∧ tagged (ImageTag (types.ID (ImageInspectWithRaw order ref f).1.1) target f).2
      target.
Proof.
  intros Hinv Htag Horder. unfold ImageInspectWithRaw.
  destruct (ErrImageInspect f); [done|].
  destruct (inspect_range ref order) as [imageID|] eqn:Hr; [|done].
  intros _. cbn [fst snd types.ID].
  assert (Hkey : tagged f imageID).
  { destruct (inspect_range_result f order ref imageID Horder Hr)
      as [Hl|[-> [tag Ht]]]; by eapply Hinv. }
  destruct Hkey as [x Hx]. unfold ImageTag, tagged. rewrite Htag, Hx. cbn.
  split; [done|]. rewrite lookup_insert_eq. by eexists.
Qed.

(** X14. A build can be inspected by the id it gave: after a build with no
    forced failure, inspect of that id returns it, in every order; and so
    does inspect of a tag of the build, unless that tag was the image id of
    an older entry. *)
Theorem built_image_is_inspectable (f : Fake'') options order :
  ErrImageBuild f = false →
  ErrImageInspect f = false →
  range_order (TagToImageID (ImageBuild options f).2) order →
  ImageInspectWithRaw order (next_id f) (ImageBuild options f).2
  = ({| types.ID := next_id f; types.RepoDigests := RepoDigests f |},
     "{" +:+ dq +:+ "Config" +:+ dq +:+ ":{" +:+ dq +:+ "Image" +:+ dq +:+ ":"
       +:+ dq +:+ next_id f +:+ dq +:+ "}}",
     None)
  ∧ (∀ tag, tag ∈ types.Tags options →
       (∀ t, go_lookup (TagToImageID f) t ≠ Some tag) →
       types.ID (ImageInspectWithRaw order tag (ImageBuild options f).2).1.1
       = next_id f
       ∧ (ImageInspectWithRaw order tag (ImageBuild options f).2).2 = None).
Proof.
  intros Hbuild Hinspect Horder.
  assert (Hflag : ErrImageInspect (ImageBuild options f).2 = false).
  { unfold ImageBuild. by rewrite Hbuild. }
  assert (Hdig : RepoDigests (ImageBuild options f).2 = RepoDigests f).
  { unfold ImageBuild. by rewrite Hbuild. }
  assert (Hid : go_lookup (TagToImageID (ImageBuild options f).2) (next_id f)
                = Some (next_id f)).
  { unfold ImageBuild, next_id. rewrite Hbuild. cbn.
    apply foldl_build_tag_keeps_id, lookup_insert_eq. }
  assert (Hvals : ∀ k v, go_lookup (TagToImageID (ImageBuild options f).2) k = Some v →
            v = next_id f ∨ go_lookup (TagToImageID f) k = Some v).
  { unfold ImageBuild, next_id. rewrite Hbuild. cbn. intros k v Hkv.
    apply foldl_build_tag in Hkv as [->|Hkv]; [by left|].
    rewrite lookup_insert in Hkv. case_decide; [left; congruence|right].
    by destruct (TagToImageID f). }
  unfold ImageInspectWithRaw. rewrite Hflag, Hdig. split.
  - by rewrite (inspect_range_tag _ order (next_id f) (next_id f) Horder Hid).
  - intros tag Hin Hfresh.
    assert (Htag : go_lookup (TagToImageID (ImageBuild options f).2) tag
                   = Some (next_id f)).
    { unfold ImageBuild, next_id. rewrite Hbuild. cbn.
      by apply foldl_build_tag_sets. }
    rewrite (inspect_range_tag _ order tag (next_id f) Horder Htag); [done|].
    intros t Ht. apply Hvals in Ht as [Ht|Ht]; [done|]. by destruct (Hfresh t).
Qed.

(** X15. A push reports a digest that depends on the image id alone: after
    a tag that returned no error, a push of the target and a push of the
    source append the same digest, the one the source had before. *)
Theorem tagged_image_pushes_same_digest (f : Fake'') image ref :
  ErrImageTag f = false →
  ErrImagePush f = false →
  (ImageTag image ref f).1 = None →
  Pushed (ImagePush ref (ImageTag image ref f).2).2
  = Pushed f ++ [push_digest f image]
  ∧ Pushed (ImagePush image (ImageTag image ref f).2).2
    = Pushed f ++ [push_digest f image].
Proof.
  intros Htag Hpush. unfold ImageTag. rewrite Htag.
  destruct (go_lookup (TagToImageID f) image) as [imageID|] eqn:Hl; [|done].
  intros _. unfold ImagePush, push_digest. cbn. rewrite Hpush, Hl. cbn.
  rewrite lookup_insert_eq. split; [done|].
  rewrite lookup_insert. case_decide; [done|].
  destruct (TagToImageID f) as [tags|]; [|done]. cbn in Hl. by rewrite Hl.
Qed.

(** X16. [ErrStream] fails the stream, not the call: a build, push or pull
    that returns no error returns a stream; with [ErrStream] set, reading it
    gives nothing and an error; without, reading it gives the JSON text with
    the digest of the call (the new image id, the pushed digest, none for a
    pull) and no error. *)
Theorem stream_of_successful_call (c : Call) (f : Fake'') :
  failure c f = None →
  operation c = Build ∨ operation c = Push ∨ operation c = Pull →
  ∃ r, stream c f = Some r
       ∧ (ErrStream f = true → ∃ e, ReadAll r = ("", Some e))
       ∧ (ErrStream f = false → ReadAll r = (aux_digest (reported c f), None)).
Proof.
  intros Hok Hop.
  destruct c as [options|order ref|image ref|ref|ref]; cbn in *;
    try (destruct Hop as [?|[?|?]]; discriminate).
  - unfold ImageBuild in *. destruct (ErrImageBuild f); [done|]. cbn.
    eexists. split; [done|]. unfold body. cbn.
    destruct (ErrStream f); split; intros; try done. by eexists.
  - unfold ImagePush in *. destruct (ErrImagePush f); [done|]. cbn.
    eexists. split; [done|]. unfold body. cbn.
    destruct (ErrStream f); split; intros; try done. by eexists.
  - unfold ImagePull in *. destruct (ErrImagePull f); [done|]. cbn.
    eexists. split; [done|]. unfold body. cbn.
    destruct (ErrStream f); split; intros; try done. by eexists.
Qed.

(** X17. A pull does not make an image known: it leaves the fake as it was,
    so a reference that was neither a tag nor an image id is still reported
    as not found by an inspect after the pull. *)
Theorem pull_registers_nothing (f : Fake'') order ref :
  ErrImageInspect f = false →
  range_order (TagToImageID f) order →
  ¬ known f ref →
  (ImagePull ref f).2 = f
  ∧ ∃ e, (ImageInspectWithRaw order ref (ImagePull ref f).2).2 = Some e
         ∧ NotFound e = Some true.
Proof.
  intros Hflag Horder Hunknown.
  assert (Hsame : (ImagePull ref f).2 = f).
  { unfold ImagePull. by destruct (ErrImagePull f). }
  split; [done|]. rewrite Hsame. unfold ImageInspectWithRaw. rewrite Hflag.
  destruct (inspect_range ref order) as [imageID|] eqn:Hr; [|by eexists].
  destruct Hunknown. apply (inspect_range_known f order ref Horder). by eexists.
Qed.

(** X18. A push does not ask whether the reference is known: with no forced
    failure, a push of a reference that is no tag returns no error, records
    the reference, and records as digest that of the empty image id, the same
    for every such reference; the table is not changed. *)
Theorem push_of_unknown_reference (f : Fake'') ref :
  ErrImagePush f = false →
  go_lookup (TagToImageID f) ref = None →
  (ImagePush ref f).1.2 = None
  ∧ PushedImages (ImagePush ref f).2 = PushedImages f ++ [ref]
  ∧ Pushed (ImagePush ref f).2
    = Pushed f ++ ["sha256:" +:+ String.substring 0 64 (sha256.hexdigest "")]
  ∧ TagToImageID (ImagePush ref f).2 = TagToImageID f.
Proof.
  intros Hflag Hl. unfold ImagePush. rewrite Hflag, Hl. done.
Qed.
End fake_more.

(** * The further properties at work on the example data *)

Section more_examples.
Import os runcontext cache cachefile testutil daemon calls example scenario.

Lemma X2_witness :
  NewCache (H := plain.text) (H0 := plain.join) (H1 := plain.dirs)
    local_daemon enabled true tt garbled
  = ((Some noCache, None),
     (NewCache (H := plain.text) (H0 := plain.join) (H1 := plain.dirs)
        no_daemon enabled true tt garbled).2).
Proof.
  apply (NewCache_noop_without_client (H := plain.text) (H0 := plain.join)
           (H1 := plain.dirs) no_daemon local_daemon enabled true tt garbled).
  vm_compute; reflexivity.
Defined.

Lemma X3_witness :
  resolveCacheFile (H0 := plain.join) (H1 := plain.dirs) "" homeless
  = (("", Some (withMessage (fmtError "$HOME is not defined" [])
                  "retrieving home directory")),
     traced EvHomeDir homeless)
  ∧ NewCache (H := plain.text) (H0 := plain.join) (H1 := plain.dirs)
      local_daemon by_default false tt homeless
    = ((Some noCache, None),
       logged {| level := "warning";
                 format := "Error resolving cache file, not using skaffold cache: %v";
                 arg := withMessage (fmtError "$HOME is not defined" [])
                          "retrieving home directory" |}
         (traced EvHomeDir homeless)).
Proof.
  apply (no_home_directory (H := plain.text) (H0 := plain.join)
           (H1 := plain.dirs) local_daemon by_default false tt homeless "");
    reflexivity.
Defined.

Lemma X6_witness :
  ∃ w3,
    NewCache (H := plain.text) (H0 := plain.join) (H1 := plain.dirs)
      local_daemon enabled true tt
      (saveArtifactCache (H := plain.text) path artifacts fresh).2
    = ((Some (ptr {| artifactCache := Some (go_entries artifacts);
                     dependencies := tt; client := Some tt;
                     insecureRegistries := None; cacheFile := path;
                     imagesAreLocal := true |}), None), w3).
Proof.
  eexists.
  apply (saved_cache_is_next_session (H := plain.text) (H0 := plain.join)
           (H1 := plain.dirs) local_daemon enabled true tt artifacts path fresh
           (saveArtifactCache (H := plain.text) path artifacts fresh).2
           (resolveCacheFile (H0 := plain.join) (H1 := plain.dirs) path
              (saveArtifactCache (H := plain.text) path artifacts fresh).2).2
           (Some tt));
    vm_compute; reflexivity.
Defined.


Lemma X8_witness :
  next_id (ImageBuild build_two fake).2 ≠ next_id fake
  ∧ next_id fake = "sha256:2".
Proof.
  split; [|reflexivity].
  apply (consecutive_builds_differ fake build_two). reflexivity.
Defined.

Lemma X9_witness :
  after (H := plain.zeros) (CallTag "nothing" "app:v2") fake = fake
  ∧ after (H := plain.zeros) (CallPush "app") (force Push fake)
    = force Push fake.
Proof.
  split.
  - apply (failed_call_changes_nothing (H := plain.zeros)
             (CallTag "nothing" "app:v2") fake). discriminate.
  - apply (failed_call_changes_nothing (H := plain.zeros)
             (CallPush "app") (force Push fake)). discriminate.
Defined.

Lemma fake_ids_are_tags : ids_are_tags fake.
Proof.
  intros tag imageID Hl. exists "sha256:1".
  assert (Hin : (tag, imageID) ∈ visit)
    by (apply elem_of_map_to_list; by rewrite <- go_lookup_entries).
  vm_compute in Hin.
  repeat (apply elem_of_cons in Hin as [[= -> ->]|Hin];
          [vm_compute; reflexivity|]).
  by apply elem_of_nil in Hin.
Qed.

Lemma C7_counterexample :
  known handmade "sha256:7"
  ∧ (ImageInspectWithRaw handmade_visit "sha256:7" handmade).2 = None
  ∧ ErrImageTag handmade = false
  ∧ (ImageTag "sha256:7" "app:v2" handmade).1 ≠ None.
Proof.
  split; [exists "app", "sha256:7"; split; [vm_compute; reflexivity|by right]|].
  split; [vm_compute; reflexivity|]. split; [reflexivity|].
  vm_compute. discriminate.
Qed.

Lemma C7_witness :
  (ImageTag "app" "app:v2" fake).1 = None
  ∧ go_lookup (TagToImageID (ImageTag "app" "app:v2" fake).2) "app:v2"
    = Some "sha256:1"
  ∧ types.ID (ImageInspectWithRaw
                (map_to_list (go_entries
                   (TagToImageID (ImageTag "app" "app:v2" fake).2)))
                "app:v2" (ImageTag "app" "app:v2" fake).2).1.1 = "sha256:1"
  ∧ (ImageTag "nothing" "app:v2" fake).1 ≠ None
  ∧ ¬ known fake "nothing".
Proof.
  destruct (ImageTag_fails_iff_untagged fake "app" "app:v2")
    as (_ & _ & Hok); [reflexivity|].
  destruct Hok as (imageID & Hsrc & Hdst & _ & _ & _ & Hinspect);
    [vm_compute; reflexivity|].
  assert (Hid : imageID = "sha256:1").
  { vm_compute in Hsrc. congruence. }
  subst imageID.
  destruct (ImageTag_fails_iff_untagged fake "nothing" "app:v2")
    as (Hfails & Hunknown & _); [reflexivity|].
  assert (Hnot : ¬ tagged fake "nothing").
  { intros [x Hx]. vm_compute in Hx. discriminate. }
  split; [vm_compute; reflexivity|]. split; [exact Hdst|]. split.
  - apply Hinspect; [reflexivity|by unfold range_order|].
    intros tag Hl.
    assert (Hin : (tag, "app:v2") ∈ map_to_list (go_entries
                    (TagToImageID (ImageTag "app" "app:v2" fake).2)))
      by (apply elem_of_map_to_list; by rewrite <- go_lookup_entries).
    vm_compute in Hin.
    repeat (apply elem_of_cons in Hin as [[=]|Hin]).
    by apply elem_of_nil in Hin.
  - split; [by apply Hfails|].
    apply (proj1 (Hunknown fake_ids_are_tags)). by apply Hfails.
Defined.

Lemma X11_witness :
  ids_are_tags (after (H := plain.zeros) (CallBuild build_two) fake)
  ∧ ids_are_tags (after (H := plain.zeros) (CallTag "app" "app:v2") fake).
Proof.
  split.
  - apply (calls_keep_ids_tagged (H := plain.zeros) (CallBuild build_two) fake).
    exact fake_ids_are_tags.
  - apply (calls_keep_ids_tagged (H := plain.zeros) (CallTag "app" "app:v2") fake).
    exact fake_ids_are_tags.
Defined.

Lemma visit_is_an_order : range_order (TagToImageID fake) visit.
Proof. unfold range_order, visit. reflexivity. Qed.

Lemma X12_witness :
  types.ID (ImageInspectWithRaw visit "app" fake).1.1 = "sha256:1"
  ∧ (ImageInspectWithRaw visit "app" fake).2 = None.
Proof.
  rewrite (inspect_resolves_tag fake visit "app" "sha256:1").
  - split; reflexivity.
  - exact visit_is_an_order.
  - reflexivity.
  - vm_compute; reflexivity.
  - intros tag Hl.
    assert (Hin : (tag, "app") ∈ visit)
      by (apply elem_of_map_to_list; by rewrite <- go_lookup_entries).
    vm_compute in Hin.
    repeat (apply elem_of_cons in Hin as [[=]|Hin]).
    by apply elem_of_nil in Hin.
Defined.

Lemma X13_witness :
  (ImageTag (types.ID (ImageInspectWithRaw visit "app:latest" fake).1.1)
     "app:v2" fake).1 = None
  ∧ tagged (ImageTag (types.ID (ImageInspectWithRaw visit "app:latest" fake).1.1)
              "app:v2" fake).2 "app:v2".
Proof.
  apply (inspected_image_can_be_tagged fake visit "app:latest" "app:v2").
  - exact fake_ids_are_tags.
  - reflexivity.
  - exact visit_is_an_order.
  - vm_compute; reflexivity.
Defined.

Lemma X14_witness :
  types.ID (ImageInspectWithRaw revisit "sha256:2" rebuilt).1.1 = "sha256:2"
  ∧ (ImageInspectWithRaw revisit "sha256:2" rebuilt).2 = None.
Proof.
  destruct (built_image_is_inspectable fake build_two revisit) as [Hid _].
  - reflexivity.
  - reflexivity.
  - unfold range_order, revisit, rebuilt. reflexivity.
  - assert (Hnext : next_id fake = "sha256:2") by (vm_compute; reflexivity).
    rewrite Hnext in Hid. unfold rebuilt. rewrite Hid. split; reflexivity.
Defined.

Lemma X15_witness :
  Pushed (ImagePush (H := plain.zeros) "app:v2" (ImageTag "app" "app:v2" fake).2).2
  = [push_digest (H := plain.zeros) fake "app"]
  ∧ Pushed (ImagePush (H := plain.zeros) "app" (ImageTag "app" "app:v2" fake).2).2
    = [push_digest (H := plain.zeros) fake "app"].
Proof.
  apply (tagged_image_pushes_same_digest (H := plain.zeros) fake "app" "app:v2");
    vm_compute; reflexivity.
Defined.

Lemma X16_witness :
  (∃ r, stream (H := plain.zeros) (CallPull "app") fake_stream_fails = Some r
        ∧ ∃ e, ReadAll r = ("", Some e))
  ∧ (∃ r, stream (H := plain.zeros) (CallBuild build_two) fake = Some r
          ∧ ReadAll r = (aux_digest "sha256:2", None)).
Proof.
  split.
  - destruct (stream_of_successful_call (H := plain.zeros) (CallPull "app")
                fake_stream_fails) as (r & Hr & Hfail & _);
      [reflexivity|by right; right|].
    exists r. split; [exact Hr|by apply Hfail].
  - destruct (stream_of_successful_call (H := plain.zeros) (CallBuild build_two)
                fake) as (r & Hr & _ & Hok);
      [reflexivity|by left|].
    exists r. split; [exact Hr|by apply Hok].
Defined.

Lemma X17_witness :
  (ImagePull "other" fake).2 = fake
  ∧ ∃ e, (ImageInspectWithRaw visit "other" (ImagePull "other" fake).2).2 = Some e
         ∧ NotFound e = Some true.
Proof.
  apply (pull_registers_nothing fake visit "other");
    [reflexivity|exact visit_is_an_order|].
  intros Hknown. apply (inspect_range_known fake visit "other" visit_is_an_order)
    in Hknown.
  vm_compute in Hknown. by destruct Hknown.
Defined.

Lemma X18_witness :
  (ImagePush (H := plain.zeros) "other" fake).1.2 = None
  ∧ PushedImages (ImagePush (H := plain.zeros) "other" fake).2 = ["other"]
  ∧ Pushed (ImagePush (H := plain.zeros) "other" fake).2
    = ["sha256:" +:+ String.substring 0 64
                       (sha256.hexdigest (Impl := plain.zeros) "")]
  ∧ TagToImageID (ImagePush (H := plain.zeros) "other" fake).2
    = TagToImageID fake.
Proof.
  apply (push_of_unknown_reference (H := plain.zeros) fake "other");
    vm_compute; reflexivity.
Defined.
End more_examples.
